(** * data_tool.py: a shallow embedding and its verified properties

    The development follows [src/data_tool.py] function by function.
    Python objects are a tagged union [value]; a [dict] is an insertion
    ordered association list with unique keys; exceptions are results in
    the sum type [exn + A]; the two library parsers the tool relies on
    ([json.load] and [csv.reader]) are represented by what they return
    for a given file.

    Text is [string]: the UTF-8 encoding of a Python [str].  Byte-wise
    comparison of UTF-8 text coincides with code point comparison, so
    [String.compare] is the order Python's [sorted] uses on [str]. *)

From Stdlib Require Import List String Ascii ZArith NArith Bool Arith Lia.
From Stdlib Require Import Permutation Sorted DecimalString.
Import ListNotations.
Local Open Scope list_scope.
Local Open Scope string_scope.
Local Open Scope nat_scope.

Set Warnings "-register-all".

(** ** Python values *)

(** A float is kept by its [repr] text (the shortest decimal that reads
    back to the same binary64 number), with the three non finite values
    apart: only finiteness and the text are ever observed by the tool. *)
Inductive pyfloat : Type :=
| FNan
| FInf (negative : bool)
| FFinite (repr : string).

(** Dictionary keys.  [json.load] only produces [str] keys; the records of
    [csv.DictReader] may also carry the key [None] (its default
    [restkey]). *)
Definition key : Type := option string.

Inductive value : Type :=
| VNone
| VBool (b : bool)
| VInt (n : Z)
| VFloat (f : pyfloat)
| VStr (s : string)
| VList (items : list value)
| VDict (entries : list (key * value)).

Definition dict : Type := list (key * value).

Definition key_eqb (a b : key) : bool :=
  match a, b with
  | None, None => true
  | Some x, Some y => String.eqb x y
  | _, _ => false
  end.

(** [d.get(k)]: [None] (Rocq) when the key is not bound. *)
Fixpoint dict_get (d : dict) (k : key) : option value :=
  match d with
  | [] => None
  | (k', v) :: rest => if key_eqb k k' then Some v else dict_get rest k
  end.

(** [d.get(k, default)] *)
Definition dict_get_default (d : dict) (k : key) (default : value) : value :=
  match dict_get d k with
  | Some v => v
  | None => default
  end.

(** [d[k] = v]: an existing key keeps its position, a new key goes last. *)
Fixpoint dict_set (d : dict) (k : key) (v : value) : dict :=
  match d with
  | [] => [(k, v)]
  | (k', v') :: rest =>
      if key_eqb k k' then (k', v) :: rest else (k', v') :: dict_set rest k v
  end.

Definition dict_keys (d : dict) : list key := map fst d.

(** [dict(pairs)]: the pairs are inserted from left to right. *)
Definition dict_of_pairs (pairs : list (key * value)) : dict :=
  fold_left (fun d kv => dict_set d (fst kv) (snd kv)) pairs [].

(** [type(v).__name__] *)
Definition type_name (v : value) : string :=
  match v with
  | VNone => "NoneType"
  | VBool _ => "bool"
  | VInt _ => "int"
  | VFloat _ => "float"
  | VStr _ => "str"
  | VList _ => "list"
  | VDict _ => "dict"
  end.

(** ** Text forms: [str], [repr] and [json.dumps] *)

Definition dquote : ascii := ascii_of_nat 34.
Definition backslash : ascii := ascii_of_nat 92.
Definition squote : ascii := ascii_of_nat 39.

Definition str1 (c : ascii) : string := String c EmptyString.

(** [str(n)] for an [int] *)
Definition str_of_Z (n : Z) : string := NilZero.string_of_int (Z.to_int n).
Definition str_of_nat (n : nat) : string := str_of_Z (Z.of_nat n).

Definition hex_digit (n : nat) : ascii :=
  if n <? 10 then ascii_of_nat (48 + n) else ascii_of_nat (87 + n).

Definition hex2 (c : ascii) : string :=
  let n := nat_of_ascii c in
  String (hex_digit (n / 16)) (String (hex_digit (n mod 16)) EmptyString).

Fixpoint string_mem (c : ascii) (s : string) : bool :=
  match s with
  | EmptyString => false
  | String c' s' => Ascii.eqb c c' || string_mem c s'
  end.

Fixpoint string_flat_map (f : ascii -> string) (s : string) : string :=
  match s with
  | EmptyString => EmptyString
  | String c s' => f c ++ string_flat_map f s'
  end.

(** One character of [repr(str)] between quotes [q].  Bytes above 0x7F
    belong to the encoding of a non ASCII code point and are kept, as the
    interpreter keeps printable non ASCII characters; the escapes it
    writes for the non printable ones are not modelled, so that [repr]
    is exact on ASCII text, and the statements that fix a [repr] text
    ask for ASCII text. *)
Definition repr_char (q : ascii) (c : ascii) : string :=
  let n := nat_of_ascii c in
  if Ascii.eqb c backslash then String backslash (str1 backslash)
  else if Ascii.eqb c q then String backslash (str1 q)
  else if n =? 9 then String backslash "t"
  else if n =? 10 then String backslash "n"
  else if n =? 13 then String backslash "r"
  else if (n <? 32) || (n =? 127) then String backslash ("x" ++ hex2 c)
  else str1 c.

(** [repr(s)] for a [str]: single quotes unless the text has a single
    quote and no double quote. *)
Definition repr_str (s : string) : string :=
  let q := if string_mem squote s && negb (string_mem dquote s)
           then dquote else squote in
  String q (string_flat_map (repr_char q) s ++ str1 q).

Definition repr_float (f : pyfloat) : string :=
  match f with
  | FNan => "nan"
  | FInf false => "inf"
  | FInf true => "-inf"
  | FFinite r => r
  end.

Definition repr_key (k : key) : string :=
  match k with
  | None => "None"
  | Some s => repr_str s
  end.

Fixpoint join (sep : string) (parts : list string) : string :=
  match parts with
  | [] => ""
  | [p] => p
  | p :: rest => p ++ sep ++ join sep rest
  end.

(** [repr(v)] *)
Fixpoint py_repr (v : value) : string :=
  match v with
  | VNone => "None"
  | VBool true => "True"
  | VBool false => "False"
  | VInt n => str_of_Z n
  | VFloat f => repr_float f
  | VStr s => repr_str s
  | VList items => "[" ++ join ", " (map py_repr items) ++ "]"
  | VDict entries =>
      "{" ++ join ", "
               (map (fun kv => match kv with
                               | (k, x) => repr_key k ++ ": " ++ py_repr x
                               end) entries) ++ "}"
  end.

(** [str(v)], which is also what an f-string field [{v}] renders. *)
Definition py_str (v : value) : string :=
  match v with
  | VStr s => s
  | _ => py_repr v
  end.

Definition str_of_key (k : key) : string :=
  match k with
  | None => "None"
  | Some s => s
  end.

(** One character of a JSON string with [ensure_ascii=False]. *)
Definition json_char (c : ascii) : string :=
  let n := nat_of_ascii c in
  if Ascii.eqb c backslash then String backslash (str1 backslash)
  else if Ascii.eqb c dquote then String backslash (str1 dquote)
  else if n =? 8 then String backslash "b"
  else if n =? 9 then String backslash "t"
  else if n =? 10 then String backslash "n"
  else if n =? 12 then String backslash "f"
  else if n =? 13 then String backslash "r"
  else if n <? 32 then String backslash ("u00" ++ hex2 c)
  else str1 c.

Definition json_str (s : string) : string :=
  String dquote (string_flat_map json_char s ++ str1 dquote).

Definition json_float (f : pyfloat) : string :=
  match f with
  | FNan => "NaN"
  | FInf false => "Infinity"
  | FInf true => "-Infinity"
  | FFinite r => r
  end.

(** The text [json.dumps] writes for a key: [None] becomes ["null"]. *)
Definition json_key (k : key) : string :=
  match k with
  | None => "null"
  | Some s => s
  end.

(** [json.dumps(v, ensure_ascii=False)] with the default separators. *)
Fixpoint json_dumps (v : value) : string :=
  match v with
  | VNone => "null"
  | VBool true => "true"
  | VBool false => "false"
  | VInt n => str_of_Z n
  | VFloat f => json_float f
  | VStr s => json_str s
  | VList items => "[" ++ join ", " (map json_dumps items) ++ "]"
  | VDict entries =>
      "{" ++ join ", "
               (map (fun kv => match kv with
                               | (k, x) =>
                                   json_str (json_key k) ++ ": " ++ json_dumps x
                               end) entries) ++ "}"
  end.

(** What [json.load] returns for the text [json.dump] wrote: scalars come
    back unchanged, keys come back as text, and of two equal keys the
    later value wins at the earlier position. *)
Fixpoint json_reload (v : value) : value :=
  match v with
  | VList items => VList (map json_reload items)
  | VDict entries =>
      VDict (dict_of_pairs
               (map (fun kv => match kv with
                               | (k, x) => (Some (json_key k), json_reload x)
                               end) entries))
  | _ => v
  end.

(** ** What [int(val)] and [float(val)] accept

    Both calls sit in [try ... except Exception] blocks of the validator,
    so only whether they raise is observable.  For a [str] the
    interpreter first maps every code point above U+007E that is a space
    to a blank and every decimal digit (Unicode 14.0, the database of
    CPython 3.11) to its ASCII digit, any other such code point making
    the call fail; the result is read by the ASCII grammar.  [int]
    also refuses more than 4300 digits (the default of
    [sys.int_info.default_max_str_digits], which the tool never
    changes). *)

(** A value no code point has, for bytes that are not UTF-8. *)
Definition invalid_code : N := 0x110000%N.

(** The code points of UTF-8 text; [pending] continuation bytes are still
    due for the code point begun in [acc]. *)
Fixpoint decode_utf8 (pending : nat) (acc : N) (l : list ascii) : list N :=
  match l with
  | [] => match pending with
          | 0 => []
          | S _ => [invalid_code]
          end
  | b :: rest =>
      let n := N_of_ascii b in
      match pending with
      | 0 =>
          if (n <? 128)%N then n :: decode_utf8 0 0%N rest
          else if ((192 <=? n) && (n <? 224))%N
               then decode_utf8 1 (n - 192)%N rest
          else if ((224 <=? n) && (n <? 240))%N
               then decode_utf8 2 (n - 224)%N rest
          else if ((240 <=? n) && (n <? 248))%N
               then decode_utf8 3 (n - 240)%N rest
          else invalid_code :: decode_utf8 0 0%N rest
      | S k =>
          if ((128 <=? n) && (n <? 192))%N
          then let acc := (acc * 64 + (n - 128))%N in
               match k with
               | 0 => acc :: decode_utf8 0 0%N rest
               | S _ => decode_utf8 k acc rest
               end
          else invalid_code :: decode_utf8 0 0%N rest
      end
  end.

Definition in_range (lo hi cp : N) : bool := ((lo <=? cp) && (cp <=? hi))%N.

(** [Py_UNICODE_ISSPACE] above U+007E *)
Definition unicode_space (cp : N) : bool :=
  (cp =? 0x85)%N || (cp =? 0xA0)%N || (cp =? 0x1680)%N
  || in_range 0x2000 0x200A cp
  || (cp =? 0x2028)%N || (cp =? 0x2029)%N || (cp =? 0x202F)%N
  || (cp =? 0x205F)%N || (cp =? 0x3000)%N.

(** The digit zero of each run of ten decimal digits (general category
    Nd) of Unicode 14.0 above ASCII. *)
Definition decimal_zeros : list N :=
  [0x0660; 0x06F0; 0x07C0; 0x0966; 0x09E6; 0x0A66; 0x0AE6; 0x0B66;
   0x0BE6; 0x0C66; 0x0CE6; 0x0D66; 0x0DE6; 0x0E50; 0x0ED0; 0x0F20;
   0x1040; 0x1090; 0x17E0; 0x1810; 0x1946; 0x19D0; 0x1A80; 0x1A90;
   0x1B50; 0x1BB0; 0x1C40; 0x1C50; 0xA620; 0xA8D0; 0xA900; 0xA9D0;
   0xA9F0; 0xAA50; 0xABF0; 0xFF10; 0x104A0; 0x10D30; 0x11066; 0x110F0;
   0x11136; 0x111D0; 0x112F0; 0x11450; 0x114D0; 0x11650; 0x116C0;
   0x11730; 0x118E0; 0x11950; 0x11C50; 0x11D50; 0x11DA0; 0x16A60;
   0x16AC0; 0x16B50; 0x1D7CE; 0x1D7D8; 0x1D7E2; 0x1D7EC; 0x1D7F6;
   0x1E140; 0x1E2F0; 0x1E950; 0x1FBF0]%N.

(** [Py_UNICODE_TODECIMAL] above U+007E *)
Definition unicode_decimal (cp : N) : option N :=
  match find (fun zero => in_range zero (zero + 9) cp) decimal_zeros with
  | Some zero => Some (cp - zero)%N
  | None => None
  end.

(** One code point of [_PyUnicode_TransformDecimalAndSpaceToASCII]. *)
Definition number_char (cp : N) : ascii :=
  if (cp <? 127)%N then ascii_of_N cp
  else if unicode_space cp then " "%char
  else match unicode_decimal cp with
       | Some d => ascii_of_N (48 + d)
       | None => "?"%char
       end.

(** The text [int] and [float] parse for the [str] [s]. *)
Definition number_chars (s : string) : list ascii :=
  map number_char (decode_utf8 0 0%N (list_ascii_of_string s)).

Definition int_max_str_digits : nat := 4300.

Definition is_space (c : ascii) : bool :=
  let n := nat_of_ascii c in ((9 <=? n) && (n <=? 13)) || (n =? 32).

Definition is_digit (c : ascii) : bool :=
  let n := nat_of_ascii c in (48 <=? n) && (n <=? 57).

Definition is_sign (c : ascii) : bool :=
  Ascii.eqb c "+"%char || Ascii.eqb c "-"%char.

Definition is_underscore (c : ascii) : bool := Ascii.eqb c "_"%char.

Fixpoint lstrip (l : list ascii) : list ascii :=
  match l with
  | c :: rest => if is_space c then lstrip rest else l
  | [] => []
  end.

Definition strip (l : list ascii) : list ascii :=
  rev (lstrip (rev (lstrip l))).

Definition drop_sign (l : list ascii) : list ascii :=
  match l with
  | c :: rest => if is_sign c then rest else l
  | [] => []
  end.

(** Digits with single underscores between them; [prev] tells whether the
    previous character was a digit. *)
Fixpoint digits_us (prev : bool) (l : list ascii) : bool :=
  match l with
  | [] => prev
  | c :: rest =>
      if is_digit c then digits_us true rest
      else if is_underscore c then prev && digits_us false rest
      else false
  end.

(** [int(s)] succeeds on the text [s] *)
Definition int_text_ok (s : string) : bool :=
  let body := drop_sign (strip (number_chars s)) in
  digits_us false body
  && (List.length (filter is_digit body) <=? int_max_str_digits).

Fixpoint span_digits (l : list ascii) : nat * list ascii :=
  match l with
  | c :: rest =>
      if is_digit c
      then let (n, r) := span_digits rest in (S n, r)
      else (0, l)
  | [] => (0, [])
  end.

Definition lower_char (c : ascii) : ascii :=
  let n := nat_of_ascii c in
  if (65 <=? n) && (n <=? 90) then ascii_of_nat (n + 32) else c.

Definition is_word (w : string) (l : list ascii) : bool :=
  String.eqb (string_of_list_ascii (map lower_char l)) w.

Definition is_exp_mark (c : ascii) : bool :=
  Ascii.eqb c "e"%char || Ascii.eqb c "E"%char.

(** sign? (digits [. digits] | . digits) ([eE] sign? digits)?  or one of
    inf, infinity, nan in any letter case *)
Definition float_grammar (l : list ascii) : bool :=
  let body := drop_sign l in
  if is_word "inf" body || is_word "infinity" body || is_word "nan" body
  then true
  else
    let (n1, r1) := span_digits body in
    let (n2, r2) := match r1 with
                    | c :: r => if Ascii.eqb c "."%char
                                then span_digits r else (0, r1)
                    | [] => (0, r1)
                    end in
    if n1 + n2 =? 0 then false
    else match r2 with
         | [] => true
         | c :: r3 =>
             if is_exp_mark c
             then let (n3, r4) := span_digits (drop_sign r3) in
                  (0 <? n3) && match r4 with [] => true | _ => false end
             else false
         end.

(** An underscore must stand between two digits. *)
Fixpoint underscores_ok (prev : option ascii) (l : list ascii) : bool :=
  match l with
  | [] => match prev with
          | Some p => negb (is_underscore p)
          | None => true
          end
  | c :: rest =>
      let prev_digit := match prev with Some p => is_digit p | None => false end in
      let prev_us := match prev with Some p => is_underscore p | None => false end in
      (if is_underscore c then prev_digit
       else negb prev_us || is_digit c)
      && underscores_ok (Some c) rest
  end.

(** [float(s)] succeeds on the text [s] *)
Definition float_text_ok (s : string) : bool :=
  let t := strip (number_chars s) in
  if existsb is_underscore t
  then underscores_ok None t
       && float_grammar (filter (fun c => negb (is_underscore c)) t)
  else float_grammar t.

(** [int(val)] returns *)
Definition int_ok (val : value) : bool :=
  match val with
  | VBool _ | VInt _ => true
  | VFloat (FFinite _) => true
  | VFloat _ => false
  | VStr s => int_text_ok s
  | VNone | VList _ | VDict _ => false
  end.

(** [float(val)] returns; an [int] beyond the binary64 range overflows. *)
Definition float_ok (val : value) : bool :=
  match val with
  | VBool _ | VFloat _ => true
  | VInt n => (Z.abs n <? 2 ^ 1024 - 2 ^ 970)%Z
  | VStr s => float_text_ok s
  | VNone | VList _ | VDict _ => false
  end.

(** ** Exceptions and files *)

Inductive exn_class : Type :=
| FileNotFoundError
| ValueError
| TypeError
| AttributeError
| JSONDecodeError
| CsvError
| UnicodeDecodeError
| UnicodeEncodeError
| OSError.

(** A raised exception: its class and [str(exc)]. *)
Record exn : Type := Raise { exn_kind : exn_class; exn_text : string }.

Definition result (A : Type) : Type := (exn + A)%type.

Definition ret {A : Type} (a : A) : result A := inr a.
Definition raise {A : Type} (c : exn_class) (msg : string) : result A :=
  inl (Raise c msg).

Definition bind {A B : Type} (m : result A) (k : A -> result B) : result B :=
  match m with
  | inl e => inl e
  | inr a => k a
  end.

Notation "x <- m ;; k" := (bind m (fun x => k))
  (at level 61, m at next level, right associativity).

(** [try: body  except Exception: handler] *)
Definition try_except {A : Type} (body : result A) (handler : result A)
  : result A :=
  match body with
  | inl _ => handler
  | inr a => inr a
  end.

(** A file is what the two library parsers make of its text:
    [json.load] returns a document or raises; [csv.reader] yields the
    rows [csv_rows] and then stops, or raises [csv_error] when asked for
    one more row. *)
Record file : Type := File {
  json_load : result value;
  csv_rows : list (list string);
  csv_error : option exn
}.

(** Paths are their text; a path is bound when the file exists. *)
Definition path : Type := string.
Definition filesystem : Type := path -> option file.

Definition path_open (fs : filesystem) (p : path) : result file :=
  match fs p with
  | Some f => ret f
  | None => raise FileNotFoundError
              ("[Errno 2] No such file or directory: " ++ repr_str p)
  end.

Definition attribute_error {A : Type} (v : value) (attr : string) : result A :=
  raise AttributeError
    ("'" ++ type_name v ++ "' object has no attribute '" ++ attr ++ "'").

(** [obj.get(k, default)] on any object: only a [dict] has [get]. *)
Definition obj_get (obj : value) (k : key) (default : value) : result value :=
  match obj with
  | VDict d => ret (dict_get_default d k default)
  | _ => attribute_error obj "get"
  end.

(** ** The record reader *)

(** One record of [csv.DictReader] (default [restkey=None],
    [restval=None]): [dict(zip(fieldnames, row))], then the surplus cells
    of a long row under the key [None], or [None] for every header field a
    short row does not reach. *)
Definition dict_reader_row (fieldnames row : list string) : dict :=
  let d := dict_of_pairs (combine (map Some fieldnames) (map VStr row)) in
  let lf := List.length fieldnames in
  let lr := List.length row in
  if lf <? lr then dict_set d None (VList (map VStr (skipn lf row)))
  else if lr <? lf
       then fold_left (fun d k => dict_set d (Some k) VNone)
                      (skipn lr fieldnames) d
       else d.

Definition is_blank (row : list string) : bool :=
  match row with
  | [] => true
  | _ => false
  end.

(** The records [csv.DictReader] yields: the first row is the header,
    blank rows are skipped. *)
Definition dict_reader (rows : list (list string)) : list value :=
  match rows with
  | [] => []
  | fieldnames :: data =>
      map (fun row => VDict (dict_reader_row fieldnames row))
          (filter (fun row => negb (is_blank row)) data)
  end.

(** Truth value of an [Optional[int]]: [None] and [0] are false. *)
Definition truthy (max_rows : option Z) : bool :=
  match max_rows with
  | None => false
  | Some n => negb (n =? 0)%Z
  end.

(** [max_rows and i + 1 >= max_rows] *)
Definition cap_reached (max_rows : option Z) (i : nat) : bool :=
  match max_rows with
  | None => false
  | Some n => negb (n =? 0)%Z && (n <=? Z.of_nat i + 1)%Z
  end.

(** The loop of [read_csv]: [records] are still to be yielded, [tail] is
    what the reader raises after them, [i] is the index [enumerate]
    gives and [rows] the list built so far. *)
Fixpoint read_csv_loop (max_rows : option Z) (tail : option exn)
    (records : list value) (i : nat) (rows : list value)
  : result (list value) :=
  match records with
  | [] => match tail with
          | Some e => inl e
          | None => ret rows
          end
  | r :: rest =>
      let rows := (rows ++ [r])%list in
      if cap_reached max_rows i then ret rows
      else read_csv_loop max_rows tail rest (S i) rows
  end.

Definition read_csv (fs : filesystem) (p : path) (max_rows : option Z)
  : result (list value) :=
  f <- path_open fs p ;;
  read_csv_loop max_rows (csv_error f) (dict_reader (csv_rows f)) 0 [].

(** [data[:n]] *)
Definition slice_to (data : list value) (n : Z) : list value :=
  if (0 <=? n)%Z then firstn (Z.to_nat n) data
  else firstn (Z.to_nat (Z.of_nat (List.length data) + n)) data.

Definition read_json (fs : filesystem) (p : path) (max_rows : option Z)
  : result (list value) :=
  f <- path_open fs p ;;
  data <- json_load f ;;
  match data with
  | VList items =>
      ret (match max_rows with
           | Some n => if truthy max_rows then slice_to items n else items
           | None => items
           end)
  | VDict _ => ret [data]
  | _ => raise ValueError "JSON root must be an object or an array of objects"
  end.

(** [summarize_rows]: standard output is presentation and is not kept;
    what remains is whether the function raises. *)
Definition summarize_rows (rows : list value) (show : nat) : result unit :=
  match rows with
  | [] => ret tt
  | first :: _ =>
      columns <- match first with
                 | VDict d => ret (dict_keys d)
                 | _ => attribute_error first "keys"
                 end ;;
      fold_left
        (fun acc r =>
           _ <- acc ;;
           fold_left (fun acc c => _ <- acc ;; _ <- obj_get r c (VStr "") ;; ret tt)
                     columns (ret tt))
        (firstn show rows) (ret tt)
  end.

(** ** Conversions *)

Inductive document : Type :=
| JsonDocument (v : value)
| CsvDocument (rows : list (list string)).

(** [csv_to_json]: the value handed to [json.dump]; opening the output
    and writing to it are taken to succeed ([main_run] has their
    failures). *)
Definition csv_to_json (fs : filesystem) (in_path : path) : result value :=
  f <- path_open fs in_path ;;
  data <- read_csv_loop None (csv_error f) (dict_reader (csv_rows f)) 0 [] ;;
  ret (VList data).

(** A [set] of keys, as the list of its distinct members. *)
Definition set_add (s : list key) (k : key) : list key :=
  if existsb (key_eqb k) s then s else (s ++ [k])%list.

Definition set_update (s : list key) (ks : list key) : list key :=
  fold_left set_add ks s.

Fixpoint insert_sorted (x : string) (l : list string) : list string :=
  match l with
  | [] => [x]
  | y :: rest =>
      if String.leb x y then x :: l else y :: insert_sorted x rest
  end.

Definition sort_strings (l : list string) : list string :=
  fold_right insert_sorted [] l.

Definition strings_of (ks : list key) : list string :=
  flat_map (fun k => match k with Some s => [s] | None => [] end) ks.

(** [sorted(fields)]: ascending for text; comparing [None] with text
    raises (never the case for the keys of a JSON document). *)
Definition sorted_keys (s : list key) : result (list key) :=
  match s with
  | [] => ret []
  | [k] => ret [k]
  | _ =>
      if existsb (key_eqb None) s
      then raise TypeError
             "'<' not supported between instances of 'NoneType' and 'str'"
      else ret (map Some (sort_strings (strings_of s)))
  end.

(** The text the csv writer puts in a cell. *)
Definition cell_text (v : value) : string :=
  match v with
  | VNone => ""
  | VStr s => s
  | _ => py_str v
  end.

Definition value_of_key (k : key) : value :=
  match k with
  | None => VNone
  | Some s => VStr s
  end.

(** [csv.DictWriter.writerow] with [restval=""] and
    [extrasaction="raise"]: the cells of one row. *)
Definition dict_writer_row (fieldnames : list key) (rowdict : dict)
  : result (list string) :=
  match filter (fun k => negb (existsb (key_eqb k) fieldnames))
               (dict_keys rowdict) with
  | [] => ret (map (fun k => cell_text (dict_get_default rowdict k (VStr "")))
                   fieldnames)
  | wrong => raise ValueError
               ("dict contains fields not in fieldnames: "
                ++ join ", " (map repr_key wrong))
  end.

(** [csv.DictWriter.writeheader] *)
Definition dict_writer_header (fieldnames : list key) : result (list string) :=
  dict_writer_row fieldnames
    (dict_of_pairs (combine fieldnames (map value_of_key fieldnames))).

(** Lines 102-108: the row dictionary of one item. *)
Fixpoint build_row (item : value) (fields : list key) (row : dict)
  : result dict :=
  match fields with
  | [] => ret row
  | k :: rest =>
      v <- obj_get item k (VStr "") ;;
      build_row item rest
        (dict_set row k (match v with
                         | VDict _ | VList _ => VStr (json_dumps v)
                         | _ => v
                         end))
  end.

(** Lines 100-109: [out] is what has been written to the file so far;
    an exception leaves it there. *)
Fixpoint write_rows (fields : list key) (items : list value)
    (out : list (list string)) : list (list string) * result unit :=
  match items with
  | [] => (out, ret tt)
  | item :: rest =>
      match (row <- build_row item fields [] ;; dict_writer_row fields row) with
      | inl e => (out, inl e)
      | inr cells => write_rows fields rest (out ++ [cells])%list
      end
  end.

(** Lines 92-95 *)
Definition union_fields (items : list value) : list key :=
  fold_left (fun fields item =>
               match item with
               | VDict d => set_update fields (dict_keys d)
               | _ => fields
               end) items [].

(** [json_to_csv]: the rows written to the output file ([None] when the
    file was never opened) and how the call ended.  Opening the output
    and writing to it are taken to succeed: a run in which they raise
    ends earlier, with that exception ([json_to_csv_run] has those
    failures). *)
Definition json_to_csv (fs : filesystem) (in_path : path)
  : option (list (list string)) * result unit :=
  match (f <- path_open fs in_path ;; json_load f) with
  | inl e => (None, inl e)
  | inr data =>
      let data := match data with
                  | VDict _ => VList [data]
                  | _ => data
                  end in
      match data with
      | VList items =>
          match sorted_keys (union_fields items) with
          | inl e => (None, inl e)
          | inr fields =>
              match dict_writer_header fields with
              | inl e => (Some [], inl e)
              | inr header =>
                  let (out, r) := write_rows fields items [header] in
                  (Some out, r)
              end
          end
      | _ => (None,
              raise ValueError
                "JSON must be an array of objects or a single object")
      end
  end.

(** ** The validator *)

(** [val is None or val == ""] *)
Definition is_missing (val : value) : bool :=
  match val with
  | VNone => true
  | VStr s => String.eqb s ""
  | _ => false
  end.

(** [tname == "..."] for a schema value. *)
Definition tag_is (tname : value) (tag : string) : bool :=
  match tname with
  | VStr s => String.eqb s tag
  | _ => false
  end.

Definition row_label (i : nat) : string := "row " ++ str_of_nat (i + 1).

Definition msg_missing (i : nat) (field : key) : string :=
  row_label i ++ ": missing " ++ str_of_key field.

Definition msg_expected (i : nat) (field : key) (what : string) (val : value)
  : string :=
  row_label i ++ ": field " ++ str_of_key field ++ " expected " ++ what
  ++ ", got " ++ py_repr val.

Definition msg_unknown (field : key) (tname : value) : string :=
  "unknown schema type for " ++ str_of_key field ++ ": " ++ py_str tname.

(** Lines 122-140: the body of the inner loop, on the error list. *)
Definition check_field (i : nat) (r : value) (field : key) (tname : value)
    (errors : list string) : result (list string) :=
  val <- obj_get r field VNone ;;
  if is_missing val then ret (errors ++ [msg_missing i field])%list
  else if tag_is tname "int" then
    ret (if int_ok val then errors
         else (errors ++ [msg_expected i field "int" val])%list)
  else if tag_is tname "float" then
    ret (if float_ok val then errors
         else (errors ++ [msg_expected i field "float" val])%list)
  else if tag_is tname "str" then ret errors
  else ret (errors ++ [msg_unknown field tname])%list.

(** Line 121: [for field, tname in schema.items()] *)
Fixpoint validate_fields (i : nat) (r : value) (items : dict)
    (errors : list string) : result (list string) :=
  match items with
  | [] => ret errors
  | (field, tname) :: rest =>
      errors <- check_field i r field tname errors ;;
      validate_fields i r rest errors
  end.

(** Line 120: [for i, r in enumerate(rows)] *)
Fixpoint validate_rows (i : nat) (rows : list value) (schema : dict)
    (errors : list string) : result (list string) :=
  match rows with
  | [] => ret errors
  | r :: rest =>
      errors <- validate_fields i r schema errors ;;
      validate_rows (S i) rest schema errors
  end.

Definition validate_schema (rows : list value) (schema : dict)
  : result (list string) :=
  validate_rows 0 rows schema [].

Definition load_schema (fs : filesystem) (p : path) : result dict :=
  f <- path_open fs p ;;
  data <- json_load f ;;
  match data with
  | VDict d => ret d
  | _ => raise ValueError "Schema must be a JSON object mapping field -> type"
  end.

(** ** The command line *)

(** [Path.suffix]: the part of the final component from its last dot,
    when that dot is neither its first nor its last character. *)
Fixpoint take_name (rev_chars : list ascii) : list ascii :=
  match rev_chars with
  | [] => []
  | c :: rest => if Ascii.eqb c "/"%char then [] else c :: take_name rest
  end.

Fixpoint split_last_dot (rev_name ext : list ascii)
  : option (list ascii * list ascii) :=
  match rev_name with
  | [] => None
  | c :: rest =>
      if Ascii.eqb c "."%char then Some (rest, ext)
      else split_last_dot rest (c :: ext)
  end.

Definition suffix (p : path) : string :=
  match split_last_dot (take_name (rev (list_ascii_of_string p))) [] with
  | Some (_ :: _, (_ :: _) as ext) => string_of_list_ascii ("."%char :: ext)
  | _ => ""
  end.

(** [p.suffix.lower()]; for the comparisons with [".csv"] and [".json"]
    lowering the ASCII letters is exact. *)
Definition suffix_lower (p : path) : string :=
  string_of_list_ascii (map lower_char (list_ascii_of_string (suffix p))).

Inductive command : Type :=
| Summary (p : path)
| ConvertToJson (csv_path output : path)
| ConvertToCsv (json_path output : path)
| Validate (p schema : path).

(** What one run leaves behind: the exit status, the lines on standard
    error and the file written, if any. *)
Record outcome : Type := Outcome {
  exit_code : Z;
  stderr : list string;
  written : option (path * document)
}.

(** Lines 224-226 *)
Definition error_exit (e : exn) (w : option (path * document)) : outcome :=
  Outcome 1 ["Error: " ++ exn_text e] w.

(** Lines 186-190 and 208-213: [try: read_json  except Exception: read_csv] *)
Definition detect_and_read (fs : filesystem) (p : path) (max_rows : option Z)
  : result (list value) :=
  try_except (read_json fs p max_rows) (read_csv fs p max_rows).

(** Lines 181-190 and 204-213: the reader chosen by the extension. *)
Definition load_rows (fs : filesystem) (p : path) (max_rows : option Z)
  : result (list value) :=
  if String.eqb (suffix_lower p) ".csv" then read_csv fs p max_rows
  else if String.eqb (suffix_lower p) ".json" then read_json fs p max_rows
  else detect_and_read fs p max_rows.

(** Lines 191-192 *)
Definition finish_summary (rows : result (list value)) : outcome :=
  match (rows <- rows ;; summarize_rows rows 5) with
  | inl e => error_exit e None
  | inr _ => Outcome 0 [] None
  end.

(** Lines 214-223 *)
Definition finish_validate (fs : filesystem) (schema_path : path)
    (rows : result (list value)) : outcome :=
  match (rows <- rows ;;
         schema <- load_schema fs schema_path ;;
         validate_schema rows schema) with
  | inl e => error_exit e None
  | inr [] => Outcome 0 [] None
  | inr (_ :: _) => Outcome 3 [] None
  end.

(** Lines 175-226: [main] from the point where [parse_args] has returned
    the command (a usage error or [-h] ends the program before it).
    Printing, and opening and writing the output of a conversion, are
    taken to succeed ([main_run] has their failures). *)
Definition main (fs : filesystem) (cmd : command) : outcome :=
  match cmd with
  | Summary p =>
      match fs p with
      | None => Outcome 2 ["File not found: " ++ p] None
      | Some _ => finish_summary (load_rows fs p (Some 20%Z))
      end
  | ConvertToJson csv_path output =>
      match csv_to_json fs csv_path with
      | inl e => error_exit e None
      | inr data => Outcome 0 [] (Some (output, JsonDocument data))
      end
  | ConvertToCsv json_path output =>
      match json_to_csv fs json_path with
      | (w, r) =>
          let w := option_map (fun rows => (output, CsvDocument rows)) w in
          match r with
          | inl e => error_exit e w
          | inr _ => Outcome 0 [] w
          end
      end
  | Validate p schema_path =>
      finish_validate fs schema_path (load_rows fs p None)
  end.

(** Files for examples: a file with given rows, or a given document. *)
Definition csv_file (rows : list (list string)) : file :=
  File (raise JSONDecodeError "Expecting value: line 1 column 1 (char 0)")
       rows None.

Definition json_file (doc : value) : file :=
  File (ret doc) [] None.

Definition single_file (name : path) (f : file) : filesystem :=
  fun p => if String.eqb p name then Some f else None.

(** ** Notions used by the statements *)

Definition is_record (v : value) : bool :=
  match v with
  | VDict _ => true
  | _ => false
  end.

(** Every key of every dictionary inside [v] is text, as in any document
    [json.load] returns. *)
Fixpoint str_keyed (v : value) : bool :=
  match v with
  | VList items => forallb str_keyed items
  | VDict entries =>
      forallb (fun kv => match kv with
                         | (Some _, x) => str_keyed x
                         | (None, _) => false
                         end) entries
  | _ => true
  end.

(** The cell the flattener is specified to emit for a field of a record:
    empty text when the field is absent or null, the JSON text of a nested
    value, the default text form of a scalar. *)
Definition expected_cell (r : value) (name : string) : string :=
  match r with
  | VDict d =>
      match dict_get d (Some name) with
      | None => ""
      | Some VNone => ""
      | Some (VDict _ as v) | Some (VList _ as v) => json_dumps v
      | Some v => py_str v
      end
  | _ => ""
  end.

Definition str_lt (a b : string) : Prop := String.compare a b = Lt.

Definition nonblank (data : list (list string)) : list (list string) :=
  filter (fun row => negb (is_blank row)) data.

(** The assignments [csv.DictReader] performs for one row, in order:
    the zipped pairs, then the surplus list or the [None] fill. *)
Definition assignments (fieldnames row : list string) : list (key * value) :=
  (combine (map Some fieldnames) (map VStr row)
   ++ (if List.length fieldnames <? List.length row
       then [(None, VList (map VStr (skipn (List.length fieldnames) row)))]
       else map (fun k => (Some k, VNone))
                (skipn (List.length row) fieldnames)))%list.

(** The header paired with the cells of a row, [None] past its end. *)
Fixpoint padded (fieldnames row : list string) : list (key * value) :=
  match fieldnames with
  | [] => []
  | name :: names =>
      match row with
      | [] => (Some name, VNone) :: padded names []
      | c :: cells => (Some name, VStr c) :: padded names cells
      end
  end.

(** The value a row gives to the header position [j]. *)
Definition row_value (row : list string) (j : nat) : value :=
  match nth_error row j with
  | Some c => VStr c
  | None => VNone
  end.

Definition text_or_null (v : value) : bool :=
  match v with
  | VStr _ | VNone => true
  | _ => false
  end.

Definition is_text (v : value) : bool :=
  match v with
  | VStr _ => true
  | _ => false
  end.

(** An entry of a record of the delimited reader: a header field bound
    to text or null, or the key [None] bound to a list of texts. *)
Definition csv_entry_shape (kv : key * value) : bool :=
  match kv with
  | (Some _, v) => text_or_null v
  | (None, VList cells) => forallb is_text cells
  | (None, _) => false
  end.

Definition csv_record_shape (r : value) : bool :=
  match r with
  | VDict d => forallb csv_entry_shape d
  | _ => false
  end.

(** The last position of a name in the header, and the cell a row has
    there (empty text when the row is shorter or the name is unknown). *)
Fixpoint last_index (name : string) (h : list string) : option nat :=
  match h with
  | [] => None
  | n0 :: rest =>
      match last_index name rest with
      | Some j => Some (S j)
      | None => if String.eqb name n0 then Some 0 else None
      end
  end.

Definition original_cell (h row : list string) (name : string) : string :=
  match last_index name h with
  | Some j => nth j row ""
  | None => ""
  end.

(** The dataset of a document: the elements of a list root, or the one
    record of a mapping root. *)
Definition dataset_of (doc : value) : option (list value) :=
  match doc with
  | VDict _ => Some [doc]
  | VList items => Some items
  | _ => None
  end.

(** Lines 105-108: a nested value is stored as its JSON text. *)
Definition nested_to_text (v : value) : value :=
  match v with
  | VDict _ | VList _ => VStr (json_dumps v)
  | _ => v
  end.

(** An entry bound to text or null under a text key. *)
Definition plain_entry (kv : key * value) : bool :=
  match kv with
  | (Some _, v) => text_or_null v
  | (None, _) => false
  end.

(** ** Standard output

    What the program prints, as the list of the texts of its [print]
    calls in order.  [len] and slicing of a [str] count code points: in
    the UTF-8 text these are the bytes that are not continuation
    bytes. *)

Definition newline : string := String (ascii_of_nat 10) EmptyString.

Definition is_continuation (c : ascii) : bool :=
  let n := nat_of_ascii c in (128 <=? n) && (n <? 192).

(** [len(s)] *)
Fixpoint cp_length (s : string) : nat :=
  match s with
  | EmptyString => 0
  | String c rest => (if is_continuation c then 0 else 1) + cp_length rest
  end.

(** [s[:n]] *)
Fixpoint cp_take (n : nat) (s : string) : string :=
  match s with
  | EmptyString => EmptyString
  | String c rest =>
      if is_continuation c then String c (cp_take n rest)
      else match n with
           | 0 => EmptyString
           | S m => String c (cp_take m rest)
           end
  end.

(** Lines 66-69: long values are cut to 77 characters and three dots. *)
Definition trim_value (vstr : string) : string :=
  if 80 <? cp_length vstr then cp_take 77 vstr ++ "..." else vstr.

(** [repr] of the list of column names. *)
Definition repr_keys (columns : list key) : string :=
  "[" ++ join ", " (map repr_key columns) ++ "]".

Definition value_line (c : key) (v : value) : string :=
  "  " ++ str_of_key c ++ ": " ++ trim_value (py_str v).

(** Lines 64-70, with the output so far. *)
Fixpoint print_columns (r : value) (columns : list key) (out : list string)
  : list string * result unit :=
  match columns with
  | [] => (out, ret tt)
  | c :: rest =>
      match obj_get r c (VStr "") with
      | inl e => (out, inl e)
      | inr v => print_columns r rest (out ++ [value_line c v])%list
      end
  end.

(** Lines 62-71 *)
Fixpoint print_rows (i : nat) (rows : list value) (columns : list key)
    (out : list string) : list string * result unit :=
  match rows with
  | [] => (out, ret tt)
  | r :: rest =>
      match print_columns r columns
              (out ++ [("Row " ++ str_of_nat (i + 1) ++ ":")%string])%list with
      | (out, inl e) => (out, inl e)
      | (out, inr _) => print_rows (S i) rest columns (out ++ [""])%list
      end
  end.

(** [summarize_rows] with what it prints. *)
Definition summarize_rows_output (rows : list value) (show : nat)
  : list string * result unit :=
  match rows with
  | [] => (["No rows to summarize."], ret tt)
  | first :: _ =>
      match first with
      | VDict d =>
          let columns := dict_keys d in
          print_rows 0 (firstn show rows) columns
            ["Columns (" ++ str_of_nat (List.length columns) ++ "): "
             ++ repr_keys columns;
             "Total sample rows: " ++ str_of_nat (List.length rows)
             ++ " (showing up to " ++ str_of_nat show ++ ")" ++ newline]
      | _ => ([], attribute_error first "keys")
      end
  end.

(** The check mark U+2705 of line 217, in UTF-8. *)
Definition check_mark : string :=
  String (ascii_of_nat 226)
    (String (ascii_of_nat 156) (String (ascii_of_nat 133) EmptyString)).

(** Lines 216-222: what [validate] prints for an error list. *)
Definition validation_report (errors : list string) : list string :=
  match errors with
  | [] => ["Validation passed " ++ check_mark]
  | _ => "Validation found errors:"
         :: map (fun e => " - " ++ e) (firstn 200 errors)
  end.

(** Lines 80 and 110 *)
Definition wrote_line (n : nat) (out_path : path) : string :=
  "Wrote " ++ str_of_nat n ++ " records to " ++ out_path.

(** [len(data)] for the document [csv_to_json] dumps. *)
Definition record_count (doc : value) : nat :=
  match doc with
  | VList records => List.length records
  | _ => 0
  end.

(** [len(data)] in [json_to_csv], after a mapping root was wrapped. *)
Definition json_record_count (fs : filesystem) (in_path : path) : nat :=
  match (f <- path_open fs in_path ;; json_load f) with
  | inr doc => match dataset_of doc with
               | Some items => List.length items
               | None => 0
               end
  | inl _ => 0
  end.

(** [main] with standard output: the printed texts and the outcome, every
    [print] being taken to succeed ([validate_run] and [main_run] have
    the prints with their failures). *)
Definition run (fs : filesystem) (cmd : command) : list string * outcome :=
  match cmd with
  | Summary p =>
      match fs p with
      | None => ([], Outcome 2 ["File not found: " ++ p] None)
      | Some _ =>
          match load_rows fs p (Some 20%Z) with
          | inl e => ([], error_exit e None)
          | inr rows =>
              match summarize_rows_output rows 5 with
              | (out, inl e) => (out, error_exit e None)
              | (out, inr _) => (out, Outcome 0 [] None)
              end
          end
      end
  | ConvertToJson csv_path output =>
      match csv_to_json fs csv_path with
      | inl e => ([], error_exit e None)
      | inr data =>
          ([wrote_line (record_count data) output],
           Outcome 0 [] (Some (output, JsonDocument data)))
      end
  | ConvertToCsv json_path output =>
      match json_to_csv fs json_path with
      | (w, r) =>
          let w := option_map (fun rows => (output, CsvDocument rows)) w in
          match r with
          | inl e => ([], error_exit e w)
          | inr _ =>
              ([wrote_line (json_record_count fs json_path) output],
               Outcome 0 [] w)
          end
      end
  | Validate p schema_path =>
      match (rows <- load_rows fs p None ;;
             schema <- load_schema fs schema_path ;;
             validate_schema rows schema) with
      | inl e => ([], error_exit e None)
      | inr errors =>
          (validation_report errors,
           match errors with
           | [] => Outcome 0 [] None
           | _ :: _ => Outcome 3 [] None
           end)
      end
  end.


(** Text made of ASCII characters only, and values whose texts and keys
    are: on these [repr] is modelled exactly. *)
Definition ascii_text (s : string) : bool :=
  forallb (fun c => nat_of_ascii c <? 128) (list_ascii_of_string s).

Fixpoint ascii_value (v : value) : bool :=
  match v with
  | VStr s => ascii_text s
  | VList items => forallb ascii_value items
  | VDict entries =>
      forallb (fun kv => match kv with
                         | (Some k, x) => ascii_text k && ascii_value x
                         | (None, x) => ascii_value x
                         end) entries
  | _ => true
  end.

(** A value as the readers yield it: its integers are within the
    interpreter's limit of 4300 digits ([json.load] refuses longer
    ones), so that each has a decimal text and the value a [repr]. *)
Fixpoint loadable (v : value) : bool :=
  match v with
  | VInt n => (Z.abs n <? 10 ^ Z.of_nat int_max_str_digits)%Z
  | VList items => forallb loadable items
  | VDict entries => forallb (fun kv => loadable (snd kv)) entries
  | _ => true
  end.

(** The lines one (record, schema field) pair contributes. *)
Definition pair_errors (i : nat) (r : value) (kv : key * value)
  : list string :=
  match check_field i r (fst kv) (snd kv) [] with
  | inr e => e
  | inl _ => []
  end.

(** [print] can raise (the text cannot be encoded for the stream, the
    pipe is closed): an oracle gives the exception a call raises, if any,
    from the texts already printed and the text to print. *)
Definition print_oracle : Type := list string -> string -> option exn.

Definition no_fault : print_oracle := fun _ _ => None.

(** Successive [print] calls; [out] lists the calls that completed. *)
Fixpoint print_all (fault : print_oracle) (texts out : list string)
  : list string * result unit :=
  match texts with
  | [] => (out, ret tt)
  | t :: rest =>
      match fault out t with
      | Some e => (out, inl e)
      | None => print_all fault rest (out ++ [t])%list
      end
  end.

(** Lines 202-226 with their prints, which sit inside the [try]: a
    failing print ends the run through the handler, with status 1. *)
Definition validate_run (fault : print_oracle) (fs : filesystem)
    (p schema_path : path) : list string * outcome :=
  match (rows <- load_rows fs p None ;;
         schema <- load_schema fs schema_path ;;
         validate_schema rows schema) with
  | inl e => ([], error_exit e None)
  | inr errors =>
      match print_all fault (validation_report errors) [] with
      | (out, inl e) => (out, error_exit e None)
      | (out, inr _) =>
          (out, match errors with
                | [] => Outcome 0 [] None
                | _ :: _ => Outcome 3 [] None
                end)
      end
  end.

(** ** Runs with their failures *)

(** The output side of a conversion can raise: [open] on the output
    path, the write of a row (a cell the encoding of the file refuses),
    [json.dump], and the close that ends the [with] block.  An oracle
    gives the exception each of them raises, if any; [row_fault out
    cells] is asked for the row [cells] after the rows [out]. *)
Record output_faults : Type := OutputFaults {
  open_fault : option exn;
  row_fault : list (list string) -> list string -> option exn;
  dump_fault : value -> option exn;
  close_fault : option exn
}.

Definition no_output_fault : output_faults :=
  OutputFaults None (fun _ _ => None) (fun _ => None) None.

(** The end of a [with] block: an exception of the close takes the place
    of how the block ended. *)
Definition closing (w : output_faults) (r : result unit) : result unit :=
  match close_fault w with
  | Some e => inl e
  | None => r
  end.

(** Lines 100-109, each row being written or refused. *)
Fixpoint write_rows_run (w : output_faults) (fields : list key)
    (items : list value) (out : list (list string))
  : list (list string) * result unit :=
  match items with
  | [] => (out, ret tt)
  | item :: rest =>
      match (row <- build_row item fields [] ;; dict_writer_row fields row) with
      | inl e => (out, inl e)
      | inr cells =>
          match row_fault w out cells with
          | Some e => (out, inl e)
          | None => write_rows_run w fields rest (out ++ [cells])%list
          end
      end
  end.

(** [json_to_csv] with the failures of its output side: the rows that
    were written ([None] when the file was never opened) and how the call
    ended. *)
Definition json_to_csv_run (w : output_faults) (fs : filesystem)
    (in_path : path) : option (list (list string)) * result unit :=
  match (f <- path_open fs in_path ;; json_load f) with
  | inl e => (None, inl e)
  | inr data =>
      let data := match data with
                  | VDict _ => VList [data]
                  | _ => data
                  end in
      match data with
      | VList items =>
          match sorted_keys (union_fields items) with
          | inl e => (None, inl e)
          | inr fields =>
              match open_fault w with
              | Some e => (None, inl e)
              | None =>
                  let (out, r) :=
                    match dict_writer_header fields with
                    | inl e => ([], inl e)
                    | inr header =>
                        match row_fault w [] header with
                        | Some e => ([], inl e)
                        | None => write_rows_run w fields items [header]
                        end
                    end in
                  (Some out, closing w r)
              end
          end
      | _ => (None,
              raise ValueError
                "JSON must be an array of objects or a single object")
      end
  end.







(** * Properties *)

(** ** Dictionaries *)

Lemma key_eqb_eq (a b : key) : key_eqb a b = true <-> a = b.
Proof.
  destruct a as [x|], b as [y|]; simpl; split; intro H;
    try discriminate; try reflexivity.
  - apply String.eqb_eq in H. now subst.
  - injection H as ->. apply String.eqb_refl.
Qed.

Lemma key_eqb_refl (k : key) : key_eqb k k = true.
Proof. now apply key_eqb_eq. Qed.

Lemma key_eqb_neq (a b : key) : key_eqb a b = false <-> a <> b.
Proof.
  split.
  - intros H E. apply key_eqb_eq in E. congruence.
  - intro H. destruct (key_eqb a b) eqn:E; [|reflexivity].
    apply key_eqb_eq in E. contradiction.
Qed.

Lemma key_eqb_sym (a b : key) : key_eqb a b = key_eqb b a.
Proof.
  destruct (key_eqb a b) eqn:E.
  - apply key_eqb_eq in E. subst. symmetry. apply key_eqb_refl.
  - symmetry. apply key_eqb_neq. apply key_eqb_neq in E. congruence.
Qed.

Lemma existsb_key_In (k : key) (l : list key) :
  existsb (key_eqb k) l = true <-> In k l.
Proof.
  rewrite existsb_exists. split.
  - intros [x [Hx E]]. apply key_eqb_eq in E. now subst.
  - intro H. exists k. split; [assumption | apply key_eqb_refl].
Qed.

Lemma dict_get_set (d : dict) (k k' : key) (v : value) :
  dict_get (dict_set d k v) k' =
  if key_eqb k' k then Some v else dict_get d k'.
Proof.
  induction d as [|[k0 v0] d IH]; simpl.
  - reflexivity.
  - destruct (key_eqb k k0) eqn:E; simpl.
    + apply key_eqb_eq in E. subst k0.
      destruct (key_eqb k' k); reflexivity.
    + destruct (key_eqb k' k0) eqn:E0.
      * apply key_eqb_eq in E0. subst k0.
        rewrite key_eqb_sym, E. reflexivity.
      * exact IH.
Qed.

Lemma dict_get_None_keys (d : dict) (k : key) :
  dict_get d k = None <-> ~ In k (dict_keys d).
Proof.
  induction d as [|[k0 v0] d IH]; simpl.
  - tauto.
  - destruct (key_eqb k k0) eqn:E.
    + apply key_eqb_eq in E. subst. split; [discriminate | tauto].
    + apply key_eqb_neq in E. rewrite IH. split.
      * intros H [H1 | H1]; [congruence | tauto].
      * tauto.
Qed.

Lemma dict_get_In (d : dict) (k : key) (v : value) :
  dict_get d k = Some v -> In (k, v) d.
Proof.
  induction d as [|[k0 v0] d IH]; simpl; [discriminate|].
  destruct (key_eqb k k0) eqn:E.
  - apply key_eqb_eq in E. subst. intros [= ->]. now left.
  - intro H. right. now apply IH.
Qed.

Lemma dict_set_fresh (d : dict) (k : key) (v : value) :
  ~ In k (dict_keys d) -> dict_set d k v = (d ++ [(k, v)])%list.
Proof.
  induction d as [|[k0 v0] d IH]; simpl; intro H.
  - reflexivity.
  - destruct (key_eqb k k0) eqn:E.
    + apply key_eqb_eq in E. subst. tauto.
    + f_equal. apply IH. tauto.
Qed.

Lemma dict_keys_set (d : dict) (k k' : key) (v : value) :
  In k' (dict_keys (dict_set d k v)) <-> k' = k \/ In k' (dict_keys d).
Proof.
  induction d as [|[k0 v0] d IH]; simpl.
  - intuition congruence.
  - destruct (key_eqb k k0) eqn:E; simpl.
    + apply key_eqb_eq in E. subst. intuition congruence.
    + rewrite IH. intuition congruence.
Qed.

Lemma dict_set_In (d : dict) (k k' : key) (v v' : value) :
  In (k', v') (dict_set d k v) -> In (k', v') d \/ (k' = k /\ v' = v).
Proof.
  induction d as [|[k0 v0] d IH]; simpl.
  - intros [[= <- <-] | []]. now right.
  - destruct (key_eqb k k0) eqn:E; simpl.
    + apply key_eqb_eq in E. subst.
      intros [[= <- <-] | H]; [now right | left; now right].
    + intros [H | H]; [left; now left |].
      destruct (IH H) as [H1 | H1]; [left; now right | now right].
Qed.

(** Insertion of a list of pairs: the last pair for a key decides. *)
Lemma dict_get_fold_set (pairs : list (key * value)) (d : dict) (k : key) :
  dict_get (fold_left (fun d kv => dict_set d (fst kv) (snd kv)) pairs d) k =
  match dict_get (rev pairs) k with
  | Some v => Some v
  | None => dict_get d k
  end.
Proof.
  revert d. induction pairs as [|[k0 v0] pairs IH]; intro d; simpl.
  - reflexivity.
  - rewrite IH. clear IH.
    assert (G : forall (a b : dict),
               dict_get (a ++ b)%list k =
               match dict_get a k with
               | Some v => Some v
               | None => dict_get b k
               end).
    { intros a b. induction a as [|[ka va] a IHa]; simpl; [reflexivity|].
      destruct (key_eqb k ka); [reflexivity | exact IHa]. }
    rewrite G. destruct (dict_get (rev pairs) k); [reflexivity|].
    simpl. rewrite dict_get_set. destruct (key_eqb k k0); reflexivity.
Qed.

Lemma dict_of_pairs_get (pairs : list (key * value)) (k : key) :
  dict_get (dict_of_pairs pairs) k = dict_get (rev pairs) k.
Proof.
  unfold dict_of_pairs. rewrite dict_get_fold_set.
  destruct (dict_get (rev pairs) k); reflexivity.
Qed.

Lemma fold_set_fresh (pairs : list (key * value)) (d : dict) :
  NoDup (map fst pairs) ->
  (forall k, In k (map fst pairs) -> ~ In k (dict_keys d)) ->
  fold_left (fun d kv => dict_set d (fst kv) (snd kv)) pairs d
  = (d ++ pairs)%list.
Proof.
  revert d. induction pairs as [|[k0 v0] pairs IH]; intros d Hnd Hfresh; simpl.
  - now rewrite app_nil_r.
  - inversion Hnd as [|? ? Hnotin Hnd']; subst.
    rewrite dict_set_fresh by (apply Hfresh; now left).
    rewrite IH; [now rewrite <- app_assoc | assumption |].
    intros k Hk. unfold dict_keys. rewrite map_app, in_app_iff. simpl.
    intros [H | [H | []]].
    + apply (Hfresh k); [now right | exact H].
    + subst. contradiction.
Qed.

(** A dictionary is rebuilt unchanged from its own items. *)
Lemma dict_of_pairs_id (d : dict) :
  NoDup (dict_keys d) -> dict_of_pairs d = d.
Proof.
  intro H. unfold dict_of_pairs. rewrite fold_set_fresh; auto.
Qed.

Lemma dict_set_NoDup (d : dict) (k : key) (v : value) :
  NoDup (dict_keys d) -> NoDup (dict_keys (dict_set d k v)).
Proof.
  induction d as [|[k0 v0] d IH]; simpl; intro H.
  - constructor; [tauto | constructor].
  - inversion H as [|? ? Hnotin Hnd]; subst.
    destruct (key_eqb k k0) eqn:E; simpl.
    + constructor; assumption.
    + constructor; [| now apply IH].
      fold (dict_keys (dict_set d k v)). rewrite dict_keys_set.
      apply key_eqb_neq in E. intros [H1 | H1]; [congruence | contradiction].
Qed.

Lemma fold_set_NoDup (pairs : list (key * value)) (d : dict) :
  NoDup (dict_keys d) ->
  NoDup (dict_keys
           (fold_left (fun d kv => dict_set d (fst kv) (snd kv)) pairs d)).
Proof.
  revert d. induction pairs as [|kv pairs IH]; intros d H; simpl.
  - exact H.
  - apply IH. now apply dict_set_NoDup.
Qed.

(** ** The validator *)

Lemma bind_assoc {A B C : Type} (m : result A) (f : A -> result B)
    (g : B -> result C) :
  (y <- (x <- m ;; f x) ;; g y) = (x <- m ;; y <- f x ;; g y).
Proof. destruct m; reflexivity. Qed.

Lemma validate_fields_app (i : nat) (r : value) (s1 s2 : dict)
    (errors : list string) :
  validate_fields i r (s1 ++ s2)%list errors =
  (e <- validate_fields i r s1 errors ;; validate_fields i r s2 e).
Proof.
  revert errors. induction s1 as [|[field tname] s1 IH]; intro errors; simpl.
  - reflexivity.
  - destruct (check_field i r field tname errors) as [e | errors']; simpl.
    + reflexivity.
    + apply IH.
Qed.

Lemma validate_rows_app (i : nat) (rows1 rows2 : list value) (schema : dict)
    (errors : list string) :
  validate_rows i (rows1 ++ rows2)%list schema errors =
  (e <- validate_rows i rows1 schema errors ;;
   validate_rows (i + List.length rows1) rows2 schema e).
Proof.
  revert i errors.
  induction rows1 as [|r rows1 IH]; intros i errors; simpl.
  - now rewrite Nat.add_0_r.
  - destruct (validate_fields i r schema errors) as [e | errors']; simpl.
    + reflexivity.
    + rewrite IH. now rewrite Nat.add_succ_r.
Qed.

(** A pair whose value is absent or empty text adds the "missing" line,
    whatever the type tag. *)
Lemma check_field_missing (i : nat) (d : dict) (field : key) (tname : value)
    (errors : list string) :
  dict_get d field = None \/ dict_get d field = Some (VStr "") ->
  check_field i (VDict d) field tname errors =
  ret (errors ++ [msg_missing i field])%list.
Proof.
  intro H. unfold check_field, obj_get, dict_get_default. simpl.
  destruct H as [-> | ->]; reflexivity.
Qed.

(** C7. For the record at 1-indexed position [i] and a schema field
    whose value in that record is absent or empty text, the validator
    appends exactly the line "row i: missing field" for that pair and
    nothing else, whatever the type tag: the run over the whole dataset
    is the run up to that pair, that one line, and the run after it.
    In particular validate([{}], {"a":"text"}) is ["row 1: missing a"]. *)
Theorem validate_missing_field :
  forall (rows1 rows2 : list value) (d : dict) (s1 s2 : dict)
         (field : key) (tname : value),
    dict_get d field = None \/ dict_get d field = Some (VStr "") ->
    let schema := (s1 ++ (field, tname) :: s2)%list in
    let i := List.length rows1 in
    validate_schema (rows1 ++ VDict d :: rows2)%list schema =
      (e1 <- validate_rows 0 rows1 schema [] ;;
       e2 <- validate_fields i (VDict d) s1 e1 ;;
       e3 <- validate_fields i (VDict d) s2
               (e2 ++ [("row " ++ str_of_nat (i + 1) ++ ": missing "
                        ++ str_of_key field)%string])%list ;;
       validate_rows (S i) rows2 schema e3)
    /\ validate_schema [VDict []] [(Some "a", VStr "text")]
       = ret ["row 1: missing a"].
Proof.
  intros rows1 rows2 d s1 s2 field tname H schema i. split.
  - unfold validate_schema. rewrite validate_rows_app. simpl.
    destruct (validate_rows 0 rows1 schema []) as [e | e1]; simpl;
      [reflexivity|].
    fold i. unfold schema at 1. rewrite validate_fields_app.
    destruct (validate_fields i (VDict d) s1 e1) as [e | e2]; simpl;
      [reflexivity|].
    rewrite (check_field_missing i d field tname e2 H). simpl.
    reflexivity.
  - reflexivity.
Qed.

Lemma validate_missing_field_witness :
  (dict_get [(Some "b", VStr "x")] (Some "a") = None
   \/ dict_get [(Some "b", VStr "x")] (Some "a") = Some (VStr ""))
  /\ validate_schema ([VDict [(Some "a", VStr "1")]]
                      ++ VDict [(Some "b", VStr "x")] :: [])%list
       ([(Some "b", VStr "str")] ++ (Some "a", VStr "int") :: [])%list
     = ret ["row 1: missing b"; "row 2: missing a"].
Proof.
  split.
  - left. reflexivity.
  - destruct (validate_missing_field [VDict [(Some "a", VStr "1")]] []
                [(Some "b", VStr "x")] [(Some "b", VStr "str")] []
                (Some "a") (VStr "int") (or_introl eq_refl)) as [H _].
    cbv zeta in H. etransitivity; [exact H | reflexivity].
Defined.

(** The claim C1 as written fails: with the tag [integer] the parseable
    value "3" does not pass. *)
Lemma validate_integer_tag_counterexample :
  validate_schema [VDict [(Some "a", VStr "3")]] [(Some "a", VStr "integer")]
  <> ret [].
Proof. discriminate. Qed.

(** C1, amended. The tags the validator knows are [int] and [float].
    For a field bound to any value, as the readers yield it, that is not
    missing (neither null nor empty text): under [int] a value [int()] accepts passes and any
    other adds exactly one line "row i: field f expected int, got"
    followed by the [repr] of the value, and likewise under [float];
    the tags [integer] and [real] are unknown to the validator and add
    the "unknown schema type" line instead.
    validate([{"a":"3"}], {"a":"int"}) and
    validate([{"a":"3"}], {"a":"float"}) are empty and
    validate([{"a":"3.14"}], {"a":"int"}) is exactly one line for row 1
    and field a. *)
Theorem validate_int_float_tags :
  forall (i : nat) (d : dict) (field : key) (val : value)
         (errors : list string),
    dict_get d field = Some val ->
    loadable val = true ->
    is_missing val = false ->
    (int_ok val = true ->
     check_field i (VDict d) field (VStr "int") errors = ret errors)
    /\ (int_ok val = false ->
        exists shown,
          check_field i (VDict d) field (VStr "int") errors
          = ret (errors ++ [("row " ++ str_of_nat (i + 1) ++ ": field "
                             ++ str_of_key field ++ " expected int, got "
                             ++ shown)%string])%list
          /\ (ascii_value val = true -> shown = py_repr val))
    /\ (float_ok val = true ->
        check_field i (VDict d) field (VStr "float") errors = ret errors)
    /\ (float_ok val = false ->
        exists shown,
          check_field i (VDict d) field (VStr "float") errors
          = ret (errors ++ [("row " ++ str_of_nat (i + 1) ++ ": field "
                             ++ str_of_key field ++ " expected float, got "
                             ++ shown)%string])%list
          /\ (ascii_value val = true -> shown = py_repr val))
    /\ check_field i (VDict d) field (VStr "integer") errors
      = ret (errors ++ [("unknown schema type for " ++ str_of_key field
                         ++ ": integer")%string])%list
    /\ check_field i (VDict d) field (VStr "real") errors
      = ret (errors ++ [("unknown schema type for " ++ str_of_key field
                         ++ ": real")%string])%list
    /\ validate_schema [VDict [(Some "a", VStr "3")]] [(Some "a", VStr "int")]
       = ret []
    /\ validate_schema [VDict [(Some "a", VStr "3")]] [(Some "a", VStr "float")]
       = ret []
    /\ validate_schema [VDict [(Some "a", VStr "3.14")]] [(Some "a", VStr "int")]
       = ret ["row 1: field a expected int, got '3.14'"]
    /\ validate_schema
         [VDict [(Some "a", VStr (String (ascii_of_nat 217)
                                    (String (ascii_of_nat 161)
                                       (String (ascii_of_nat 217)
                                          (String (ascii_of_nat 162) "")))))]]
         [(Some "a", VStr "int")]
       = ret []
    /\ validate_schema
         [VDict [(Some "a", VList [VInt 1]); (Some "b", VFloat (FFinite "2.5"));
                 (Some "c", VStr "1e3"); (Some "d", VStr "x");
                 (Some "e", VStr "1e3")]]
         [(Some "a", VStr "int"); (Some "b", VStr "int");
          (Some "c", VStr "int"); (Some "d", VStr "float");
          (Some "e", VStr "float")]
       = ret ["row 1: field a expected int, got [1]";
              "row 1: field c expected int, got '1e3'";
              "row 1: field d expected float, got 'x'"].
Proof.
  intros i d field val errors Hget _ Hmiss.
  unfold check_field, obj_get, dict_get_default, bind, ret.
  rewrite Hget, Hmiss.
  change (tag_is (VStr "int") "int") with true.
  change (tag_is (VStr "float") "int") with false.
  change (tag_is (VStr "float") "float") with true.
  change (tag_is (VStr "integer") "int") with false.
  change (tag_is (VStr "integer") "float") with false.
  change (tag_is (VStr "integer") "str") with false.
  change (tag_is (VStr "real") "int") with false.
  change (tag_is (VStr "real") "float") with false.
  change (tag_is (VStr "real") "str") with false.
  cbv iota.
  split; [intros ->; reflexivity |].
  split; [intros ->; exists (py_repr val); split; reflexivity |].
  split; [intros ->; reflexivity |].
  split; [intros ->; exists (py_repr val); split; reflexivity |].
  split; [reflexivity |]. split; [reflexivity |].
  split; [reflexivity |]. split; [reflexivity |].
  split; [reflexivity |]. split; reflexivity.
Qed.

Lemma validate_int_float_tags_witness :
  dict_get [(Some "a", VStr "3.14")] (Some "a") = Some (VStr "3.14")
  /\ loadable (VStr "3.14") = true
  /\ is_missing (VStr "3.14") = false
  /\ int_ok (VStr "3.14") = false
  /\ float_ok (VStr "3.14") = true
  /\ check_field 0 (VDict [(Some "a", VStr "3.14")]) (Some "a") (VStr "int") []
     = ret ["row 1: field a expected int, got '3.14'"]
  /\ check_field 0 (VDict [(Some "a", VStr "3.14")]) (Some "a") (VStr "float") []
     = ret [].
Proof.
  destruct (validate_int_float_tags 0 [(Some "a", VStr "3.14")] (Some "a")
              (VStr "3.14") [] eq_refl eq_refl eq_refl) as (_ & H2 & H3 & _).
  destruct (H2 eq_refl) as [shown [E Hshown]].
  rewrite (Hshown eq_refl) in E.
  split; [reflexivity |]. split; [reflexivity |]. split; [reflexivity |].
  split; [reflexivity |].
  split; [reflexivity |]. split; [exact E | exact (H3 eq_refl)].
Defined.

(** ** The record reader *)

Lemma cap_zero_loop (tail : option exn) (records : list value) (i : nat)
    (rows : list value) :
  read_csv_loop (Some 0%Z) tail records i rows
  = read_csv_loop None tail records i rows.
Proof.
  revert i rows. induction records as [|r records IH]; intros i rows; simpl.
  - reflexivity.
  - apply IH.
Qed.

(** With a cap of at least one the loop keeps the first [n] records. *)
Lemma read_csv_loop_capped (n : Z) (tail : option exn) (records : list value) :
  forall (i : nat) (rows : list value),
    (Z.of_nat i < n)%Z ->
    tail = None \/ (n - Z.of_nat i <= Z.of_nat (List.length records))%Z ->
    read_csv_loop (Some n) tail records i rows
    = ret (rows ++ firstn (Z.to_nat n - i) records)%list.
Proof.
  induction records as [|r records IH]; intros i rows Hi Htail; simpl.
  - destruct Htail as [-> | H]; [| simpl in H; lia].
    rewrite firstn_nil, app_nil_r. reflexivity.
  - destruct (n =? 0)%Z eqn:E0; [apply Z.eqb_eq in E0; lia|]. simpl.
    destruct (n <=? Z.of_nat i + 1)%Z eqn:E1.
    + apply Z.leb_le in E1.
      replace (Z.to_nat n - i) with 1 by lia. reflexivity.
    + apply Z.leb_gt in E1.
      rewrite IH.
      * replace (Z.to_nat n - i) with (S (Z.to_nat n - S i)) by lia.
        simpl. rewrite <- app_assoc. reflexivity.
      * lia.
      * destruct Htail as [-> | H]; [now left | right].
        simpl List.length in H. lia.
Qed.

(** For every cap [n >= 1] both readers return the first [n] records, in
    order, so exactly [min n total] of them. *)
Lemma read_cap_positive (fs : filesystem) (p : path) (f : file) (n : Z) :
  fs p = Some f ->
  (1 <= n)%Z ->
  (csv_error f = None ->
   read_csv fs p (Some n)
   = ret (firstn (Z.to_nat n) (dict_reader (csv_rows f))))
  /\ (forall items, json_load f = ret (VList items) ->
      read_json fs p (Some n) = ret (firstn (Z.to_nat n) items))
  /\ (forall d, json_load f = ret (VDict d) ->
      read_json fs p (Some n) = ret [VDict d]).
Proof.
  intros Hf Hn. unfold read_csv, read_json, path_open. rewrite Hf. simpl.
  repeat split.
  - intro He. rewrite He, read_csv_loop_capped; [| lia | now left].
    now rewrite Nat.sub_0_r.
  - intros items ->. simpl. unfold slice_to.
    destruct (n =? 0)%Z eqn:E0; [apply Z.eqb_eq in E0; lia|]. simpl.
    destruct (0 <=? n)%Z eqn:E1; [reflexivity | apply Z.leb_gt in E1; lia].
  - intros d ->. reflexivity.
Qed.

(** C2 at its failing input. A cap of 0 is read as "no cap": both
    readers return every record where the claim has min(0, total) = 0
    of them. *)
Theorem read_cap_zero_returns_all :
  (forall fs p, read_csv fs p (Some 0%Z) = read_csv fs p None)
  /\ (forall fs p, read_json fs p (Some 0%Z) = read_json fs p None)
  /\ read_csv (single_file "d.csv" (csv_file [["a"]; ["1"]; ["2"]]))
       "d.csv" (Some 0%Z)
     = ret [VDict [(Some "a", VStr "1")]; VDict [(Some "a", VStr "2")]]
  /\ read_json (single_file "d.json" (json_file (VList [VInt 1; VInt 2])))
       "d.json" (Some 0%Z)
     = ret [VInt 1; VInt 2].
Proof.
  split; [| split; [| split]]; try reflexivity.
  intros fs p. unfold read_csv. destruct (path_open fs p); simpl;
    [reflexivity | apply cap_zero_loop].
Qed.

Lemma dict_get_app (a b : dict) (k : key) :
  dict_get (a ++ b)%list k =
  match dict_get a k with
  | Some v => Some v
  | None => dict_get b k
  end.
Proof.
  induction a as [|[ka va] a IH]; simpl; [reflexivity|].
  destruct (key_eqb k ka); [reflexivity | exact IH].
Qed.

Lemma dict_keys_rev (d : dict) (k : key) :
  In k (dict_keys (rev d)) <-> In k (dict_keys d).
Proof.
  unfold dict_keys. rewrite map_rev, <- in_rev. tauto.
Qed.

Lemma fold_fill_pairs (names : list string) (d : dict) :
  fold_left (fun d k => dict_set d (Some k) VNone) names d
  = fold_left (fun d kv => dict_set d (fst kv) (snd kv))
              (map (fun k => (Some k, VNone)) names) d.
Proof.
  revert d. induction names as [|k names IH]; intro d; simpl;
    [reflexivity | apply IH].
Qed.

Lemma dict_reader_row_pairs (h row : list string) :
  dict_reader_row h row = dict_of_pairs (assignments h row).
Proof.
  unfold dict_reader_row, assignments, dict_of_pairs.
  rewrite fold_left_app.
  destruct (List.length h <? List.length row) eqn:E1.
  - reflexivity.
  - destruct (List.length row <? List.length h) eqn:E2.
    + now rewrite fold_fill_pairs.
    + apply Nat.ltb_ge in E1, E2.
      rewrite skipn_all2 by lia. reflexivity.
Qed.

Lemma padded_nil (h : list string) :
  padded h [] = map (fun k => (Some k, VNone)) h.
Proof.
  induction h as [|name h IH]; simpl; [reflexivity | now rewrite IH].
Qed.

Lemma assignments_padded (h row : list string) :
  assignments h row =
  (padded h row
   ++ (if List.length h <? List.length row
       then [(None, VList (map VStr (skipn (List.length h) row)))]
       else []))%list.
Proof.
  unfold assignments. revert row.
  induction h as [|name h IH]; intro row.
  - destruct row; simpl; reflexivity.
  - destruct row as [|c row].
    + simpl. rewrite padded_nil, app_nil_r. reflexivity.
    + simpl. f_equal. apply IH.
Qed.

Lemma padded_keys (h row : list string) :
  dict_keys (padded h row) = map Some h.
Proof.
  revert row. induction h as [|name h IH]; intro row; simpl.
  - reflexivity.
  - destruct row; simpl; now rewrite IH.
Qed.

Lemma row_value_cons (c : string) (row : list string) (j : nat) :
  row_value (c :: row) (S j) = row_value row j.
Proof. reflexivity. Qed.

Lemma row_value_nil (j : nat) : row_value [] j = VNone.
Proof. unfold row_value. now destruct j. Qed.

(** The last header position of a name decides the value under it. *)
Lemma padded_get_last (h : list string) :
  forall (row : list string) (j : nat) (name : string),
    nth_error h j = Some name ->
    (forall j', j < j' -> nth_error h j' <> Some name) ->
    dict_get (rev (padded h row)) (Some name) = Some (row_value row j).
Proof.
  induction h as [|n0 h IH]; intros row j name Hj Hlast.
  - destruct j; discriminate.
  - assert (Hstep : forall v cells,
              dict_get (rev ((Some n0, v) :: padded h cells)) (Some name)
              = match dict_get (rev (padded h cells)) (Some name) with
                | Some x => Some x
                | None => if String.eqb name n0 then Some v else None
                end).
    { intros v cells. simpl rev. rewrite dict_get_app. reflexivity. }
    destruct j as [|j].
    + injection Hj as ->.
      assert (Hnot : forall cells,
                 dict_get (rev (padded h cells)) (Some name) = None).
      { intro cells. apply dict_get_None_keys. rewrite dict_keys_rev.
        rewrite padded_keys. rewrite in_map_iff. intros [x [[= ->] Hx]].
        apply In_nth_error in Hx. destruct Hx as [j' Hj'].
        apply (Hlast (S j')); [lia | exact Hj']. }
      destruct row as [|c row]; simpl padded; rewrite Hstep, Hnot,
        String.eqb_refl; reflexivity.
    + simpl in Hj.
      assert (Hlast' : forall j', j < j' -> nth_error h j' <> Some name).
      { intros j' Hlt. apply (Hlast (S j')). lia. }
      destruct row as [|c row]; simpl padded; rewrite Hstep.
      * rewrite (IH [] j name Hj Hlast'). now rewrite !row_value_nil.
      * rewrite (IH row j name Hj Hlast'). reflexivity.
Qed.

Lemma dict_reader_row_get (h row : list string) (k : key) :
  dict_get (dict_reader_row h row) k =
  match (if List.length h <? List.length row
         then if key_eqb k None
              then Some (VList (map VStr (skipn (List.length h) row)))
              else None
         else None) with
  | Some v => Some v
  | None => dict_get (rev (padded h row)) k
  end.
Proof.
  rewrite dict_reader_row_pairs, dict_of_pairs_get, assignments_padded.
  rewrite rev_app_distr, dict_get_app.
  destruct (List.length h <? List.length row); simpl; [|reflexivity].
  destruct (key_eqb k None); reflexivity.
Qed.

Lemma padded_get_None (h row : list string) :
  dict_get (rev (padded h row)) None = None.
Proof.
  apply dict_get_None_keys. rewrite dict_keys_rev, padded_keys.
  rewrite in_map_iff. intros [x [H _]]. discriminate.
Qed.

Lemma read_csv_loop_all (tail : option exn) (records : list value) (i : nat)
    (rows : list value) :
  read_csv_loop None tail records i rows =
  match tail with
  | Some e => inl e
  | None => ret (rows ++ records)%list
  end.
Proof.
  revert i rows. induction records as [|r records IH]; intros i rows; simpl.
  - destruct tail; [reflexivity | now rewrite app_nil_r].
  - rewrite IH. destruct tail; [reflexivity|].
    now rewrite <- app_assoc.
Qed.

(** The claim C5 as written fails: a field past the end of a short row
    is a key of the record, and the surplus cell of a long row is kept in
    the record. *)
Lemma read_csv_short_long_counterexample :
  exists d1 d2,
    read_csv (single_file "d.csv"
                (csv_file [["a"; "b"]; ["1"]; ["1"; "2"; "3"]]))
             "d.csv" None
    = ret [VDict d1; VDict d2]
    /\ In (Some "b") (dict_keys d1)
    /\ In (None, VList [VStr "3"]) d2.
Proof.
  exists [(Some "a", VStr "1"); (Some "b", VNone)].
  exists [(Some "a", VStr "1"); (Some "b", VStr "2");
          (None, VList [VStr "3"])].
  split; [reflexivity | split; simpl; tauto].
Qed.

(** C5, amended. In delimited-row mode every non blank data row becomes
    one record keyed by the header, in order.  Under a header name the
    record holds the cell at the last position of that name, or null
    when the row ends before that position (no error); names outside the
    header are absent; the cells beyond the header length are kept, as a
    list under the key None, exactly when the row is longer than the
    header. *)
Theorem read_csv_record_fields :
  forall (fs : filesystem) (p : path) (f : file)
         (h : list string) (data : list (list string)),
    fs p = Some f ->
    csv_rows f = h :: data ->
    csv_error f = None ->
    read_csv fs p None
      = ret (map (fun row => VDict (dict_reader_row h row)) (nonblank data))
    /\ forall row : list string,
        (forall j name,
            nth_error h j = Some name ->
            (forall j', j < j' -> nth_error h j' <> Some name) ->
            dict_get (dict_reader_row h row) (Some name)
            = Some (match nth_error row j with
                    | Some c => VStr c
                    | None => VNone
                    end))
        /\ (forall name, ~ In name h ->
            dict_get (dict_reader_row h row) (Some name) = None)
        /\ dict_get (dict_reader_row h row) None
           = if List.length h <? List.length row
             then Some (VList (map VStr (skipn (List.length h) row)))
             else None.
Proof.
  intros fs p f h data Hf Hrows Herr. split.
  - unfold read_csv, path_open. rewrite Hf. simpl.
    rewrite Herr, Hrows, read_csv_loop_all. reflexivity.
  - intro row. split; [| split].
    + intros j name Hj Hlast. rewrite dict_reader_row_get.
      replace (key_eqb (Some name) None) with false by reflexivity.
      destruct (List.length h <? List.length row);
        apply (padded_get_last h row j name Hj Hlast).
    + intros name Hnot. rewrite dict_reader_row_get.
      replace (key_eqb (Some name) None) with false by reflexivity.
      assert (G : dict_get (rev (padded h row)) (Some name) = None).
      { apply dict_get_None_keys. rewrite dict_keys_rev, padded_keys.
        rewrite in_map_iff. intros [x [[= ->] Hx]]. contradiction. }
      destruct (List.length h <? List.length row); exact G.
    + rewrite dict_reader_row_get. simpl key_eqb.
      destruct (List.length h <? List.length row);
        [reflexivity | apply padded_get_None].
Qed.

Lemma read_csv_record_fields_witness :
  let f := csv_file [["a"; "b"]; ["1"]; []; ["1"; "2"; "3"]] in
  single_file "d.csv" f "d.csv" = Some f
  /\ csv_rows f = ["a"; "b"] :: [["1"]; []; ["1"; "2"; "3"]]
  /\ csv_error f = None
  /\ read_csv (single_file "d.csv" f) "d.csv" None
     = ret [VDict [(Some "a", VStr "1"); (Some "b", VNone)];
            VDict [(Some "a", VStr "1"); (Some "b", VStr "2");
                   (None, VList [VStr "3"])]].
Proof.
  intro f.
  destruct (read_csv_record_fields (single_file "d.csv" f) "d.csv" f
              ["a"; "b"] [["1"]; []; ["1"; "2"; "3"]]
              eq_refl eq_refl eq_refl) as [H _].
  split; [reflexivity | split; [reflexivity | split; [reflexivity |]]].
  etransitivity; [exact H | reflexivity].
Defined.

Lemma fold_set_In (pairs : list (key * value)) (d : dict) (kv : key * value) :
  In kv (fold_left (fun d kv => dict_set d (fst kv) (snd kv)) pairs d) ->
  In kv d \/ In kv pairs.
Proof.
  revert d. induction pairs as [|[k0 v0] pairs IH]; intro d; simpl.
  - tauto.
  - intro H. destruct (IH _ H) as [H1 | H1]; [| tauto].
    destruct kv as [k v]. apply dict_set_In in H1.
    destruct H1 as [H1 | [-> ->]]; tauto.
Qed.

Lemma dict_reader_row_entries (h row : list string) (kv : key * value) :
  In kv (dict_reader_row h row) -> In kv (assignments h row).
Proof.
  rewrite dict_reader_row_pairs. unfold dict_of_pairs. intro H.
  apply fold_set_In in H. destruct H as [[] | H]. exact H.
Qed.

Lemma forallb_is_text (cells : list string) :
  forallb is_text (map VStr cells) = true.
Proof. induction cells; simpl; auto. Qed.

Lemma assignments_shape (h row : list string) (kv : key * value) :
  In kv (assignments h row) -> csv_entry_shape kv = true.
Proof.
  unfold assignments. rewrite in_app_iff. intros [H | H].
  - destruct kv as [k v].
    pose proof (in_combine_l _ _ _ _ H) as Hk.
    pose proof (in_combine_r _ _ _ _ H) as Hv.
    apply in_map_iff in Hk. destruct Hk as [name [<- _]].
    apply in_map_iff in Hv. destruct Hv as [c [<- _]]. reflexivity.
  - destruct (List.length h <? List.length row).
    + destruct H as [<- | []]. simpl. apply forallb_is_text.
    + apply in_map_iff in H. destruct H as [name [<- _]]. reflexivity.
Qed.

Lemma dict_reader_row_shape (h row : list string) :
  forallb csv_entry_shape (dict_reader_row h row) = true.
Proof.
  apply forallb_forall. intros kv H.
  apply (assignments_shape h row). now apply dict_reader_row_entries.
Qed.

Lemma dict_reader_shape (rows : list (list string)) :
  forallb csv_record_shape (dict_reader rows) = true.
Proof.
  destruct rows as [|h data]; [reflexivity|]. unfold dict_reader.
  apply forallb_forall. intros r Hr. apply in_map_iff in Hr.
  destruct Hr as [row [<- _]]. apply dict_reader_row_shape.
Qed.

Lemma fill_get (names : list string) (name : string) :
  In name names ->
  dict_get (rev (map (fun k => (Some k, VNone)) names)) (Some name)
  = Some VNone.
Proof.
  intro H.
  destruct (dict_get (rev (map (fun k => (Some k, VNone)) names)) (Some name))
    as [v|] eqn:E.
  - apply dict_get_In in E. apply in_rev in E. apply in_map_iff in E.
    destruct E as [x [[= _ <-] _]]. reflexivity.
  - apply dict_get_None_keys in E. exfalso. apply E.
    rewrite dict_keys_rev. unfold dict_keys. rewrite map_map. simpl.
    apply in_map_iff. exists name. split; [reflexivity | exact H].
Qed.

(** A short row binds every header field it does not reach to null. *)
Lemma short_row_null (h row : list string) (name : string) :
  In name (skipn (List.length row) h) ->
  dict_get (dict_reader_row h row) (Some name) = Some VNone.
Proof.
  intro H.
  assert (Hlen : List.length row < List.length h).
  { destruct (Nat.lt_ge_cases (List.length row) (List.length h)) as [L | L];
      [exact L|]. rewrite skipn_all2 in H by exact L. destruct H. }
  rewrite dict_reader_row_pairs, dict_of_pairs_get. unfold assignments.
  replace (List.length h <? List.length row) with false
    by (symmetry; apply Nat.ltb_ge; lia).
  rewrite rev_app_distr, dict_get_app, (fill_get _ _ H). reflexivity.
Qed.

Lemma short_row_text_or_null (h row : list string) :
  List.length row <= List.length h ->
  forallb (fun kv => text_or_null (snd kv)) (dict_reader_row h row) = true.
Proof.
  intro Hlen. apply forallb_forall. intros kv H.
  apply dict_reader_row_entries in H. unfold assignments in H.
  replace (List.length h <? List.length row) with false in H
    by (symmetry; apply Nat.ltb_ge; lia).
  apply in_app_iff in H. destruct H as [H | H].
  - destruct kv as [k v]. apply in_combine_r in H.
    apply in_map_iff in H. destruct H as [c [<- _]]. reflexivity.
  - apply in_map_iff in H. destruct H as [name [<- _]]. reflexivity.
Qed.

(** The claim C10 as written fails: a row longer than the header leaves
    a field of the written document that is neither text nor null. *)
Lemma csv_to_json_long_row_counterexample :
  csv_to_json (single_file "d.csv" (csv_file [["a"]; ["1"; "2"]])) "d.csv"
  = ret (VList [VDict [(Some "a", VStr "1"); (None, VList [VStr "2"])]])
  /\ text_or_null (VList [VStr "2"]) = false
  /\ json_dumps (VDict [(Some "a", VStr "1"); (None, VList [VStr "2"])])
     = json_dumps (VDict [(Some "a", VStr "1");
                          (Some "null", VList [VStr "2"])]).
Proof. repeat split. Qed.

(** C10, amended. Every record of the delimited reader binds each
    header field to text or to null (a short row binds the fields it does
    not reach to null), and a row longer than the header also binds the
    key None to the list of its surplus cells, as texts.  So the document
    convert-to-json writes holds only text, null and such lists of texts:
    no cell is ever turned into a number, and with no row longer than the
    header every field value is text or null. *)
Theorem csv_to_json_values :
  forall (fs : filesystem) (p : path) (doc : value),
    csv_to_json fs p = ret doc ->
    (exists records,
        doc = VList records
        /\ forallb csv_record_shape records = true
        /\ forall output,
            main fs (ConvertToJson p output)
            = Outcome 0 [] (Some (output, JsonDocument (VList records))))
    /\ (forall h row name,
           In name (skipn (List.length row) h) ->
           dict_get (dict_reader_row h row) (Some name) = Some VNone)
    /\ (forall h row,
           List.length row <= List.length h ->
           forallb (fun kv => text_or_null (snd kv)) (dict_reader_row h row)
           = true).
Proof.
  intros fs p doc H. split; [| split].
  - unfold main. rewrite H. unfold csv_to_json in H.
    destruct (path_open fs p) as [e | f]; simpl in H; [discriminate|].
    rewrite read_csv_loop_all in H.
    destruct (csv_error f); simpl in H; [discriminate|].
    injection H as <-. eexists. split; [reflexivity|].
    split; [apply dict_reader_shape | reflexivity].
  - apply short_row_null.
  - apply short_row_text_or_null.
Qed.

Lemma csv_to_json_values_witness :
  let fs := single_file "d.csv" (csv_file [["a"; "b"]; ["1"]; ["7"; "8"; "9"]]) in
  let doc := VList [VDict [(Some "a", VStr "1"); (Some "b", VNone)];
                    VDict [(Some "a", VStr "7"); (Some "b", VStr "8");
                           (None, VList [VStr "9"])]] in
  csv_to_json fs "d.csv" = ret doc
  /\ exists records,
       doc = VList records /\ forallb csv_record_shape records = true.
Proof.
  intros fs doc. split; [reflexivity|].
  destruct (csv_to_json_values fs "d.csv" doc eq_refl)
    as [[records [H1 [H2 _]]] _].
  exists records. split; assumption.
Defined.

(** ** Sets of field names and their sorted list *)

Lemma set_add_In (s : list key) (k k' : key) :
  In k' (set_add s k) <-> k' = k \/ In k' s.
Proof.
  unfold set_add. destruct (existsb (key_eqb k) s) eqn:E.
  - apply existsb_key_In in E. split; [tauto|]. intros [-> | H]; assumption.
  - rewrite in_app_iff. simpl. intuition congruence.
Qed.

Lemma set_add_NoDup (s : list key) (k : key) :
  NoDup s -> NoDup (set_add s k).
Proof.
  intro H. unfold set_add. destruct (existsb (key_eqb k) s) eqn:E.
  - exact H.
  - apply NoDup_app; [exact H | constructor; [tauto | constructor] |].
    intros x Hx [<- | []].
    apply existsb_key_In in Hx. congruence.
Qed.

Lemma set_update_In (ks s : list key) (k : key) :
  In k (set_update s ks) <-> In k ks \/ In k s.
Proof.
  unfold set_update. revert s. induction ks as [|k0 ks IH]; intro s; simpl.
  - tauto.
  - rewrite IH, set_add_In. intuition congruence.
Qed.

Lemma set_update_NoDup (ks s : list key) :
  NoDup s -> NoDup (set_update s ks).
Proof.
  unfold set_update. revert s. induction ks as [|k0 ks IH]; intros s H; simpl.
  - exact H.
  - apply IH. now apply set_add_NoDup.
Qed.

Lemma union_fold_In (items : list value) (s : list key) (k : key) :
  In k (fold_left (fun fields item =>
                     match item with
                     | VDict d => set_update fields (dict_keys d)
                     | _ => fields
                     end) items s)
  <-> In k s \/ exists d, In (VDict d) items /\ In k (dict_keys d).
Proof.
  revert s. induction items as [|item items IH]; intro s; simpl.
  - split; [tauto|]. intros [H | [d [[] _]]]. exact H.
  - rewrite IH. split.
    + intros [H | [d [Hd Hk]]].
      * destruct item; try (left; exact H).
        apply set_update_In in H. destruct H as [H | H]; [| now left].
        right. eexists. split; [left; reflexivity | exact H].
      * right. exists d. split; [now right | exact Hk].
    + intros [H | [d [[Hd | Hd] Hk]]].
      * left. destruct item; try exact H. apply set_update_In. now right.
      * subst item. left. apply set_update_In. now left.
      * right. exists d. split; assumption.
Qed.

Lemma union_fields_In (items : list value) (k : key) :
  In k (union_fields items)
  <-> exists d, In (VDict d) items /\ In k (dict_keys d).
Proof.
  unfold union_fields. rewrite union_fold_In. simpl. tauto.
Qed.

Lemma union_fields_NoDup (items : list value) : NoDup (union_fields items).
Proof.
  unfold union_fields.
  assert (G : forall s, NoDup s ->
            NoDup (fold_left (fun fields item =>
                                match item with
                                | VDict d => set_update fields (dict_keys d)
                                | _ => fields
                                end) items s)).
  { induction items as [|item items IH]; intros s H; simpl; [exact H|].
    apply IH. destruct item; try exact H. now apply set_update_NoDup. }
  apply G. constructor.
Qed.

Lemma strings_of_In (ks : list key) (name : string) :
  In name (strings_of ks) <-> In (Some name) ks.
Proof.
  unfold strings_of. rewrite in_flat_map. split.
  - intros [[x|] [H1 H2]]; simpl in H2; [| tauto].
    destruct H2 as [-> | []]. exact H1.
  - intro H. exists (Some name). split; [exact H | now left].
Qed.

Lemma strings_of_NoDup (ks : list key) : NoDup ks -> NoDup (strings_of ks).
Proof.
  induction ks as [|[x|] ks IH]; intro H; simpl.
  - constructor.
  - inversion H as [|? ? Hnotin Hnd]; subst. constructor; [| now apply IH].
    fold (strings_of ks). rewrite strings_of_In. exact Hnotin.
  - inversion H; subst. now apply IH.
Qed.

Lemma strings_of_all_text (ks : list key) :
  ~ In None ks -> map Some (strings_of ks) = ks.
Proof.
  induction ks as [|[x|] ks IH]; intro H; simpl.
  - reflexivity.
  - fold (strings_of ks). rewrite IH; [reflexivity|].
    intro H1. apply H. now right.
  - exfalso. apply H. now left.
Qed.

Lemma ascii_compare_refl (a : ascii) : Ascii.compare a a = Eq.
Proof. unfold Ascii.compare. apply N.compare_refl. Qed.

Lemma ascii_compare_lt_trans (a b c : ascii) :
  Ascii.compare a b = Lt -> Ascii.compare b c = Lt -> Ascii.compare a c = Lt.
Proof.
  unfold Ascii.compare. rewrite !N.compare_lt_iff. apply N.lt_trans.
Qed.

Lemma str_lt_trans (a b c : string) : str_lt a b -> str_lt b c -> str_lt a c.
Proof.
  unfold str_lt. revert b c.
  induction a as [|x a IH]; intros [|y b] [|z c]; simpl;
    try discriminate; try reflexivity.
  destruct (Ascii.compare x y) eqn:E1; try discriminate;
    destruct (Ascii.compare y z) eqn:E2; try discriminate; intros H1 H2.
  - apply Ascii.compare_eq_iff in E1, E2. subst.
    rewrite ascii_compare_refl. now apply (IH b c).
  - apply Ascii.compare_eq_iff in E1. subst. now rewrite E2.
  - apply Ascii.compare_eq_iff in E2. subst. now rewrite E1.
  - now rewrite (ascii_compare_lt_trans _ _ _ E1 E2).
Qed.

Lemma leb_true_lt (a b : string) :
  String.leb a b = true -> a <> b -> str_lt a b.
Proof.
  unfold String.leb, str_lt. intros H Hne.
  destruct (String.compare a b) eqn:E; try discriminate; [| reflexivity].
  apply String.compare_eq_iff in E. contradiction.
Qed.

Lemma leb_false_lt (a b : string) : String.leb a b = false -> str_lt b a.
Proof.
  unfold String.leb, str_lt. intro H. rewrite String.compare_antisym.
  destruct (String.compare a b); try discriminate. reflexivity.
Qed.

Lemma insert_sorted_In (x y : string) (l : list string) :
  In y (insert_sorted x l) <-> y = x \/ In y l.
Proof.
  induction l as [|z l IH]; simpl.
  - intuition congruence.
  - destruct (String.leb x z); simpl; [intuition congruence|].
    rewrite IH. intuition congruence.
Qed.

Lemma insert_sorted_sorted (x : string) (l : list string) :
  StronglySorted str_lt l -> ~ In x l ->
  StronglySorted str_lt (insert_sorted x l).
Proof.
  induction l as [|z l IH]; simpl; intros Hs Hnot.
  - constructor; constructor.
  - inversion Hs as [|? ? Hs' Hall]; subst.
    destruct (String.leb x z) eqn:E.
    + assert (Hxz : str_lt x z).
      { apply leb_true_lt; [exact E | intro; subst; tauto]. }
      constructor; [exact Hs|]. constructor; [exact Hxz|].
      rewrite Forall_forall in Hall |- *. intros w Hw.
      apply (str_lt_trans _ _ _ Hxz). now apply Hall.
    + constructor; [apply IH; [exact Hs' | tauto] |].
      rewrite Forall_forall in Hall |- *. intros w Hw.
      apply insert_sorted_In in Hw. destruct Hw as [-> | Hw].
      * now apply leb_false_lt.
      * now apply Hall.
Qed.

Lemma sort_strings_In (x : string) (l : list string) :
  In x (sort_strings l) <-> In x l.
Proof.
  induction l as [|y l IH]; simpl; [tauto|].
  rewrite insert_sorted_In, IH. intuition congruence.
Qed.

Lemma sort_strings_sorted (l : list string) :
  NoDup l -> StronglySorted str_lt (sort_strings l).
Proof.
  induction l as [|y l IH]; simpl; intro H.
  - constructor.
  - inversion H; subst. apply insert_sorted_sorted; [now apply IH|].
    now rewrite sort_strings_In.
Qed.

(** On field names that are all text, [sorted] is the ascending list. *)
Lemma sorted_keys_text (s : list key) :
  ~ In None s ->
  sorted_keys s = ret (map Some (sort_strings (strings_of s))).
Proof.
  intro H. unfold sorted_keys.
  destruct s as [|k [|k' s]].
  - reflexivity.
  - destruct k as [x|]; [reflexivity | exfalso; apply H; now left].
  - destruct (existsb (key_eqb None) (k :: k' :: s)) eqn:E; [| reflexivity].
    apply existsb_key_In in E. contradiction.
Qed.

(** ** The flattener *)

Lemma combine_map_self (f : key -> value) (ks : list key) :
  combine ks (map f ks) = map (fun k => (k, f k)) ks.
Proof. induction ks as [|k ks IH]; simpl; [reflexivity | now rewrite IH]. Qed.

Lemma fold_set_keys (pairs : list (key * value)) (d : dict) (k : key) :
  In k (dict_keys (fold_left (fun d kv => dict_set d (fst kv) (snd kv))
                             pairs d))
  <-> In k (dict_keys d) \/ In k (map fst pairs).
Proof.
  revert d. induction pairs as [|[k0 v0] pairs IH]; intro d; simpl.
  - tauto.
  - rewrite IH, dict_keys_set. intuition congruence.
Qed.

Lemma tabulate_keys (g : key -> value) (ks : list key) (k : key) :
  In k (dict_keys (dict_of_pairs (map (fun k => (k, g k)) ks))) <-> In k ks.
Proof.
  unfold dict_of_pairs. rewrite fold_set_keys, map_map. simpl.
  rewrite map_id. tauto.
Qed.

Lemma tabulate_get (g : key -> value) (ks : list key) (k : key) :
  In k ks ->
  dict_get (dict_of_pairs (map (fun k => (k, g k)) ks)) k = Some (g k).
Proof.
  intro H.
  destruct (dict_get (dict_of_pairs (map (fun k => (k, g k)) ks)) k)
    as [v|] eqn:E.
  - rewrite dict_of_pairs_get in E. apply dict_get_In in E.
    apply in_rev in E. apply in_map_iff in E.
    destruct E as [x [[= -> <-] _]]. reflexivity.
  - apply dict_get_None_keys in E. exfalso. apply E.
    now apply tabulate_keys.
Qed.

Lemma filter_none {A : Type} (f : A -> bool) (l : list A) :
  (forall x, In x l -> f x = false) -> filter f l = [].
Proof.
  induction l as [|a l IH]; intro H; simpl; [reflexivity|].
  rewrite (H a (or_introl eq_refl)). apply IH.
  intros x Hx. apply H. now right.
Qed.

Lemma writer_row_tabulate (g : key -> value) (ks : list key) :
  dict_writer_row ks (dict_of_pairs (map (fun k => (k, g k)) ks))
  = ret (map (fun k => cell_text (g k)) ks).
Proof.
  unfold dict_writer_row. rewrite filter_none.
  - f_equal. apply map_ext_in. intros k Hk.
    unfold dict_get_default. now rewrite tabulate_get.
  - intros k Hk. apply tabulate_keys in Hk.
    apply existsb_key_In in Hk. now rewrite Hk.
Qed.

Lemma dict_writer_header_text (names : list string) :
  dict_writer_header (map Some names) = ret names.
Proof.
  unfold dict_writer_header.
  rewrite combine_map_self, writer_row_tabulate, map_map. simpl.
  now rewrite map_id.
Qed.

Lemma fold_set_tabulate (g : key -> value) (ks : list key) (row : dict) :
  fold_left (fun row k => dict_set row k (g k)) ks row
  = fold_left (fun d kv => dict_set d (fst kv) (snd kv))
              (map (fun k => (k, g k)) ks) row.
Proof.
  revert row. induction ks as [|k ks IH]; intro row; simpl;
    [reflexivity | apply IH].
Qed.

Lemma build_row_record (d : dict) (fields : list key) (row : dict) :
  build_row (VDict d) fields row
  = ret (fold_left
           (fun row k =>
              dict_set row k (nested_to_text (dict_get_default d k (VStr ""))))
           fields row).
Proof.
  revert row. induction fields as [|k fields IH]; intro row; simpl.
  - reflexivity.
  - rewrite IH. reflexivity.
Qed.

Lemma cell_of_record (d : dict) (name : string) :
  cell_text (nested_to_text (dict_get_default d (Some name) (VStr "")))
  = expected_cell (VDict d) name.
Proof.
  unfold dict_get_default, expected_cell.
  destruct (dict_get d (Some name)) as [[]|]; reflexivity.
Qed.

(** One record becomes one row of expected cells. *)
Lemma record_row (d : dict) (names : list string) :
  (row <- build_row (VDict d) (map Some names) [] ;;
   dict_writer_row (map Some names) row)
  = ret (map (expected_cell (VDict d)) names).
Proof.
  rewrite build_row_record. simpl bind.
  rewrite (fold_set_tabulate
             (fun k => nested_to_text (dict_get_default d k (VStr "")))).
  fold (dict_of_pairs
          (map (fun k => (k, nested_to_text (dict_get_default d k (VStr ""))))
               (map Some names))).
  rewrite writer_row_tabulate, map_map. f_equal.
  apply map_ext. intro name. apply cell_of_record.
Qed.

Lemma write_rows_cons_record (names : list string) (d : dict)
    (items : list value) (out : list (list string)) :
  write_rows (map Some names) (VDict d :: items) out
  = write_rows (map Some names) items
      (out ++ [map (expected_cell (VDict d)) names])%list.
Proof. cbn [write_rows]. rewrite record_row. reflexivity. Qed.

Lemma write_rows_records (names : list string) (items : list value) :
  forall out : list (list string),
    forallb is_record items = true ->
    write_rows (map Some names) items out
    = ((out ++ map (fun r => map (expected_cell r) names) items)%list, ret tt).
Proof.
  induction items as [|item items IH]; intros out H.
  - simpl. now rewrite app_nil_r.
  - simpl in H. apply andb_true_iff in H. destruct H as [H1 H2].
    destruct item; try discriminate.
    rewrite write_rows_cons_record, IH by exact H2.
    now rewrite <- app_assoc.
Qed.

Lemma write_rows_stop (names : list string) (pre post : list value)
    (x : value) :
  forall out : list (list string),
    forallb is_record pre = true ->
    is_record x = false ->
    names <> [] ->
    write_rows (map Some names) (pre ++ x :: post)%list out
    = ((out ++ map (fun r => map (expected_cell r) names) pre)%list,
       attribute_error x "get").
Proof.
  induction pre as [|item pre IH]; intros out Hpre Hx Hnames.
  - destruct names as [|name names]; [contradiction|].
    rewrite app_nil_r. destruct x; try discriminate; reflexivity.
  - simpl in Hpre. apply andb_true_iff in Hpre. destruct Hpre as [H1 H2].
    destruct item; try discriminate.
    simpl app. rewrite write_rows_cons_record.
    rewrite IH by assumption. simpl map. now rewrite <- app_assoc.
Qed.

Lemma write_rows_no_fields (items : list value) :
  forall out : list (list string),
    write_rows [] items out = ((out ++ map (fun _ => []) items)%list, ret tt).
Proof.
  induction items as [|item items IH]; intro out; simpl.
  - now rewrite app_nil_r.
  - rewrite IH. now rewrite <- app_assoc.
Qed.

Lemma str_keyed_dict_keys (d : dict) :
  str_keyed (VDict d) = true -> ~ In None (dict_keys d).
Proof.
  simpl. induction d as [|[[x|] v] d IH]; simpl; intro H.
  - tauto.
  - apply andb_true_iff in H. destruct H as [_ H].
    intros [H1 | H1]; [discriminate | now apply IH].
  - discriminate.
Qed.

Lemma str_keyed_union (items : list value) :
  str_keyed (VList items) = true -> ~ In None (union_fields items).
Proof.
  simpl. intros H Hin. apply union_fields_In in Hin.
  destruct Hin as [d [Hd Hk]].
  rewrite forallb_forall in H. specialize (H _ Hd).
  now apply (str_keyed_dict_keys d).
Qed.

Lemma str_keyed_dataset (doc : value) (items : list value) :
  dataset_of doc = Some items ->
  str_keyed doc = true -> str_keyed (VList items) = true.
Proof.
  destruct doc; simpl; try discriminate; intros [= <-] H.
  - exact H.
  - simpl. now rewrite H.
Qed.

(** The flattener on a well formed document: sorted header, then the
    rows as far as [write_rows] gets. *)
Lemma json_to_csv_dataset (fs : filesystem) (p : path) (f : file)
    (doc : value) (items : list value) :
  fs p = Some f ->
  json_load f = ret doc ->
  dataset_of doc = Some items ->
  str_keyed doc = true ->
  json_to_csv fs p =
  let names := sort_strings (strings_of (union_fields items)) in
  let (out, r) := write_rows (map Some names) items [names] in
  (Some out, r).
Proof.
  intros Hf Hload Hdata Hkeys.
  pose proof (str_keyed_union items (str_keyed_dataset doc items Hdata Hkeys))
    as Hnone.
  unfold json_to_csv, path_open. rewrite Hf. simpl bind. rewrite Hload.
  assert (E : match doc with
              | VDict _ => VList [doc]
              | _ => doc
              end = VList items).
  { destruct doc; simpl in Hdata; try discriminate; now injection Hdata as <-. }
  unfold ret at 1. cbv iota beta. rewrite E.
  rewrite (sorted_keys_text _ Hnone). unfold ret at 1. cbv iota beta.
  rewrite dict_writer_header_text. reflexivity.
Qed.

Lemma header_facts (items : list value) :
  let header := sort_strings (strings_of (union_fields items)) in
  StronglySorted str_lt header
  /\ forall name,
      In name header
      <-> exists d, In (VDict d) items /\ In (Some name) (dict_keys d).
Proof.
  split.
  - apply sort_strings_sorted, strings_of_NoDup, union_fields_NoDup.
  - intro name.
    rewrite sort_strings_In, strings_of_In, union_fields_In. tauto.
Qed.

Lemma write_rows_run_success (w : output_faults) (fields : list key) :
  forall (items : list value) (out0 out : list (list string)),
    write_rows_run w fields items out0 = (out, ret tt) ->
    write_rows fields items out0 = (out, ret tt).
Proof.
  induction items as [|item items IH]; intros out0 out H; simpl in *.
  - exact H.
  - destruct (row <- build_row item fields [] ;; dict_writer_row fields row)
      as [e | cells]; [discriminate|].
    destruct (row_fault w out0 cells); [discriminate|].
    now apply IH.
Qed.


(** A run that ends without error met no failure on its output side: it
    is the run of [json_to_csv]. *)
Lemma json_to_csv_run_success (w : output_faults) (fs : filesystem)
    (p : path) (out : list (list string)) :
  json_to_csv_run w fs p = (Some out, ret tt) ->
  json_to_csv fs p = (Some out, ret tt).
Proof.
  unfold json_to_csv_run, json_to_csv.
  destruct (f <- path_open fs p ;; json_load f) as [e | data];
    [discriminate|].
  set (data' := match data with VDict _ => VList [data] | _ => data end).
  destruct data' as [| | | | | items |]; try discriminate.
  destruct (sorted_keys (union_fields items)) as [e | fields];
    [discriminate|].
  destruct (open_fault w); [discriminate|].
  unfold closing.
  destruct (dict_writer_header fields) as [e | header].
  - destruct (close_fault w); discriminate.
  - destruct (row_fault w [] header).
    + destruct (close_fault w); discriminate.
    + destruct (write_rows_run w fields items [header]) as [o r] eqn:E.
      destruct (close_fault w); [discriminate|].
      intro H.
      assert (Ho : o = out) by congruence.
      assert (Hr : r = ret tt) by congruence.
      subst o r.
      now rewrite (write_rows_run_success w fields items [header] out E).
Qed.





(** The scenario of the specification: a mapping root with a nested
    value. *)
Example json_to_csv_nested_scenario :
  json_to_csv
    (single_file "d.json"
       (json_file (VDict [(Some "x", VInt 1);
                          (Some "y", VDict [(Some "z", VInt 2)])])))
    "d.json"
  = (Some [["x"; "y"];
           ["1"; "{" ++ String dquote ("z" ++ String dquote ": 2}")]],
     ret tt).
Proof. reflexivity. Qed.

(** The claim C4 as written fails: a dataset of non records converts
    without any failure, and where the conversion does fail the error
    text carries the type of the element and no index, after the rows of
    the records before it were written. *)
Lemma json_to_csv_non_record_counterexample :
  json_to_csv (single_file "d.json" (json_file (VList [VInt 1; VInt 2])))
    "d.json"
  = (Some [[]; []; []], ret tt)
  /\ json_to_csv
       (single_file "d.json"
          (json_file (VList [VDict [(Some "b", VInt 1)]; VInt 2])))
       "d.json"
     = (Some [["b"]; ["1"]],
        inl (Raise AttributeError "'int' object has no attribute 'get'")).
Proof. split; reflexivity. Qed.

(** C4, amended. For a dataset with a non record element, let [x] be the
    first one.  When some record of the dataset has a field, the
    conversion stops at [x] with the lookup failure
    "'<type of x>' object has no attribute 'get'" (an AttributeError,
    which names the type, not the index), the program exits with status 1,
    and the header and the rows of the records before [x] are in the
    output file.  When no record has any field, the conversion succeeds
    and writes one empty row per element. *)
Theorem json_to_csv_non_record :
  forall (fs : filesystem) (p : path) (f : file)
         (pre post : list value) (x : value),
    fs p = Some f ->
    json_load f = ret (VList (pre ++ x :: post)%list) ->
    str_keyed (VList (pre ++ x :: post)%list) = true ->
    forallb is_record pre = true ->
    is_record x = false ->
    ((exists d name,
         In (VDict d) (pre ++ x :: post)%list /\ In (Some name) (dict_keys d)) ->
     exists header : list string,
       header <> []
       /\ json_to_csv fs p
          = (Some (header :: map (fun r => map (expected_cell r) header) pre),
             raise AttributeError
               ("'" ++ type_name x ++ "' object has no attribute 'get'"))
       /\ forall output,
           main fs (ConvertToCsv p output)
           = Outcome 1
               ["Error: '" ++ type_name x ++ "' object has no attribute 'get'"]
               (Some (output,
                      CsvDocument
                        (header
                         :: map (fun r => map (expected_cell r) header) pre))))
    /\ ((forall d, In (VDict d) (pre ++ x :: post)%list -> d = []) ->
        json_to_csv fs p
        = (Some ([] :: map (fun _ => []) (pre ++ x :: post)%list), ret tt)).
Proof.
  intros fs p f pre post x Hf Hload Hkeys Hpre Hx.
  pose proof (json_to_csv_dataset fs p f _ _ Hf Hload eq_refl Hkeys) as Hrun.
  cbv zeta in Hrun.
  destruct (header_facts (pre ++ x :: post)%list) as [_ Hhead].
  cbv zeta in Hhead. split.
  - intros [d [name [Hd Hname]]].
    exists (sort_strings (strings_of (union_fields (pre ++ x :: post)%list))).
    assert (Hne : sort_strings (strings_of (union_fields (pre ++ x :: post)%list))
                  <> []).
    { intro E. assert (Hin : In name []); [| destruct Hin].
      rewrite <- E. apply Hhead. exists d. split; assumption. }
    rewrite write_rows_stop in Hrun by assumption.
    split; [exact Hne |]. split; [exact Hrun |].
    intro output. unfold main. rewrite Hrun. reflexivity.
  - intro Hempty.
    assert (E : sort_strings (strings_of (union_fields (pre ++ x :: post)%list))
                = []).
    { destruct (sort_strings (strings_of (union_fields (pre ++ x :: post)%list)))
        as [|name rest] eqn:E; [reflexivity | exfalso].
      destruct (proj1 (Hhead name) (or_introl eq_refl)) as [d [Hd Hname]].
      rewrite (Hempty d Hd) in Hname. destruct Hname. }
    rewrite E in Hrun. simpl map in Hrun.
    rewrite write_rows_no_fields in Hrun. exact Hrun.
Qed.

Lemma json_to_csv_non_record_witness :
  let pre := [VDict [(Some "b", VInt 1)]] in
  let post := [VDict [(Some "a", VStr "z")]] in
  let f := json_file (VList (pre ++ VNone :: post)%list) in
  let fs := single_file "d.json" f in
  fs "d.json" = Some f
  /\ json_load f = ret (VList (pre ++ VNone :: post)%list)
  /\ str_keyed (VList (pre ++ VNone :: post)%list) = true
  /\ forallb is_record pre = true
  /\ is_record VNone = false
  /\ (exists d name,
         In (VDict d) (pre ++ VNone :: post)%list
         /\ In (Some name) (dict_keys d))
  /\ exists header : list string,
       header <> []
       /\ json_to_csv fs "d.json"
          = (Some (header :: map (fun r => map (expected_cell r) header) pre),
             raise AttributeError
               "'NoneType' object has no attribute 'get'").
Proof.
  intros pre post f fs.
  assert (Hfield : exists d name,
             In (VDict d) (pre ++ VNone :: post)%list
             /\ In (Some name) (dict_keys d)).
  { exists [(Some "b", VInt 1)], "b". split; simpl; tauto. }
  split; [reflexivity |].
  split; [reflexivity |].
  split; [reflexivity |].
  split; [reflexivity |].
  split; [reflexivity |].
  split; [exact Hfield |].
  destruct (json_to_csv_non_record fs "d.json" f pre post VNone
              eq_refl eq_refl eq_refl eq_refl eq_refl) as [H _].
  destruct (H Hfield) as [header [H1 [H2 _]]].
  exists header. split; [exact H1 | exact H2].
Defined.

(** ** Delimited to hierarchical and back *)

Lemma short_row_plain (h row : list string) :
  List.length row <= List.length h ->
  forallb plain_entry (dict_reader_row h row) = true.
Proof.
  intro Hlen. apply forallb_forall. intros kv H.
  apply dict_reader_row_entries in H. unfold assignments in H.
  replace (List.length h <? List.length row) with false in H
    by (symmetry; apply Nat.ltb_ge; lia).
  apply in_app_iff in H. destruct H as [H | H].
  - destruct kv as [k v].
    pose proof (in_combine_l _ _ _ _ H) as Hk.
    pose proof (in_combine_r _ _ _ _ H) as Hv.
    apply in_map_iff in Hk. destruct Hk as [name [<- _]].
    apply in_map_iff in Hv. destruct Hv as [c [<- _]]. reflexivity.
  - apply in_map_iff in H. destruct H as [name [<- _]]. reflexivity.
Qed.

Lemma dict_reader_row_NoDup (h row : list string) :
  NoDup (dict_keys (dict_reader_row h row)).
Proof.
  rewrite dict_reader_row_pairs. unfold dict_of_pairs.
  apply fold_set_NoDup. constructor.
Qed.

Lemma dict_reader_row_keys (h row : list string) (name : string) :
  In (Some name) (dict_keys (dict_reader_row h row)) <-> In name h.
Proof.
  rewrite dict_reader_row_pairs. unfold dict_of_pairs.
  rewrite fold_set_keys, assignments_padded, map_app, in_app_iff.
  fold (dict_keys (padded h row)). rewrite padded_keys. simpl. split.
  - intros [[] | [H | H]].
    + apply in_map_iff in H. destruct H as [x [[= ->] Hx]]. exact Hx.
    + destruct (List.length h <? List.length row); simpl in H;
        [destruct H as [H | []]; discriminate | destruct H].
  - intro H. right. left. now apply in_map.
Qed.

(** A record without surplus cells is read back from the written
    document as it was. *)
Lemma json_reload_plain (d : dict) :
  NoDup (dict_keys d) ->
  forallb plain_entry d = true ->
  json_reload (VDict d) = VDict d /\ str_keyed (VDict d) = true.
Proof.
  intros Hnd Hplain. rewrite forallb_forall in Hplain. split.
  - simpl. f_equal.
    rewrite (map_ext_in _ (fun kv => kv)).
    + rewrite map_id. now apply dict_of_pairs_id.
    + intros [k v] Hin. specialize (Hplain _ Hin).
      destruct k as [name|]; [| discriminate].
      destruct v; try discriminate; reflexivity.
  - simpl. apply forallb_forall. intros [k v] Hin. specialize (Hplain _ Hin).
    destruct k as [name|]; [| discriminate].
    destruct v; try discriminate; reflexivity.
Qed.

Lemma last_index_sound (name : string) (h : list string) (j : nat) :
  last_index name h = Some j -> nth_error h j = Some name.
Proof.
  revert j. induction h as [|n0 h IH]; intro j; simpl; [discriminate|].
  destruct (last_index name h) as [j0|].
  - intros [= <-]. simpl. now apply IH.
  - destruct (String.eqb name n0) eqn:E; [| discriminate].
    intros [= <-]. apply String.eqb_eq in E. now subst.
Qed.

Lemma last_index_spec (name : string) (h : list string) (j : nat) :
  nth_error h j = Some name ->
  (forall j', j < j' -> nth_error h j' <> Some name) ->
  last_index name h = Some j.
Proof.
  revert j. induction h as [|n0 h IH]; intros j Hj Hlast.
  - destruct j; discriminate.
  - simpl. destruct j as [|j].
    + injection Hj as ->.
      destruct (last_index name h) as [j0|] eqn:E.
      * apply last_index_sound in E. exfalso.
        apply (Hlast (S j0)); [lia | exact E].
      * now rewrite String.eqb_refl.
    + rewrite (IH j); [reflexivity | exact Hj |].
      intros j' Hlt. apply (Hlast (S j')). lia.
Qed.

Lemma padded_get_index (h : list string) :
  forall (row : list string) (name : string),
    dict_get (rev (padded h row)) (Some name)
    = option_map (row_value row) (last_index name h).
Proof.
  induction h as [|n0 h IH]; intros row name.
  - reflexivity.
  - assert (Hstep : forall v cells,
              dict_get (rev ((Some n0, v) :: padded h cells)) (Some name)
              = match dict_get (rev (padded h cells)) (Some name) with
                | Some x => Some x
                | None => if String.eqb name n0 then Some v else None
                end).
    { intros v cells. simpl rev. rewrite dict_get_app. reflexivity. }
    destruct row as [|c row]; simpl padded; rewrite Hstep, IH; simpl;
      destruct (last_index name h) as [j|]; simpl;
      try (destruct (String.eqb name n0)); try reflexivity.
    all: now rewrite !row_value_nil.
Qed.

(** The cell the flattener writes for a record of the delimited reader
    is the cell the row had under that name. *)
Lemma expected_cell_original (h row : list string) (name : string) :
  expected_cell (VDict (dict_reader_row h row)) name
  = original_cell h row name.
Proof.
  unfold expected_cell, original_cell.
  rewrite dict_reader_row_get. replace (key_eqb (Some name) None) with false
    by reflexivity.
  assert (G : dict_get (rev (padded h row)) (Some name)
              = option_map (row_value row) (last_index name h))
    by apply padded_get_index.
  assert (G' : match (if List.length h <? List.length row then None else None)
               with
               | Some v => Some v
               | None => dict_get (rev (padded h row)) (Some name)
               end = option_map (row_value row) (last_index name h)).
  { destruct (List.length h <? List.length row); exact G. }
  rewrite G'. destruct (last_index name h) as [j|]; simpl; [| reflexivity].
  unfold row_value. destruct (nth_error row j) as [c|] eqn:E.
  - simpl. symmetry. now apply nth_error_nth.
  - apply nth_error_None in E. symmetry. now apply nth_overflow.
Qed.

(** The claim C9 as written fails: a dataset with a header and no data
    row comes back with an empty header. *)
Lemma round_trip_header_only_counterexample :
  exists doc header rows,
    csv_to_json (single_file "d.csv" (csv_file [["a"]])) "d.csv" = ret doc
    /\ json_to_csv (single_file "d.json" (json_file (json_reload doc)))
         "d.json"
       = (Some (header :: rows), ret tt)
    /\ In "a" ["a"]
    /\ ~ In "a" header.
Proof.
  exists (VList []), [], [].
  split; [reflexivity | split; [reflexivity | split]].
  - now left.
  - intros [].
Qed.

(** C9, amended. For every delimited dataset with at least one non blank
    data row and no row longer than the header, the document written by
    the conversion to the hierarchical format, read back and flattened,
    gives: a header that is the strictly ascending list of exactly the
    original header names; one row per non blank original row, in the
    original order; and under each name the cell the original row had at
    the last header position of that name, or empty text where the row
    ended before it. *)
Theorem csv_json_csv_round_trip :
  forall (fs : filesystem) (p : path) (f : file)
         (h : list string) (data : list (list string)),
    fs p = Some f ->
    csv_rows f = h :: data ->
    csv_error f = None ->
    nonblank data <> [] ->
    Forall (fun row => List.length row <= List.length h) data ->
    exists doc : value,
      csv_to_json fs p = ret doc
      /\ forall (fs' : filesystem) (q : path) (f' : file),
          fs' q = Some f' ->
          json_load f' = ret (json_reload doc) ->
          exists header : list string,
            json_to_csv fs' q
            = (Some (header
                     :: map (fun row => map (original_cell h row) header)
                            (nonblank data)),
               ret tt)
            /\ StronglySorted str_lt header
            /\ (forall name, In name header <-> In name h)
            /\ (forall row j name,
                   nth_error h j = Some name ->
                   (forall j', j < j' -> nth_error h j' <> Some name) ->
                   original_cell h row name = nth j row "").
Proof.
  intros fs p f h data Hf Hrows Herr Hsome Hshort.
  set (records := map (fun row => VDict (dict_reader_row h row))
                      (nonblank data)).
  exists (VList records). split.
  - unfold csv_to_json, path_open. rewrite Hf. simpl bind.
    rewrite Herr, Hrows, read_csv_loop_all. reflexivity.
  - intros fs' q f' Hf' Hload.
    assert (Hrow : forall row, In row (nonblank data) ->
                               List.length row <= List.length h).
    { intros row Hin. unfold nonblank in Hin. apply filter_In in Hin.
      rewrite Forall_forall in Hshort. apply Hshort. tauto. }
    assert (Hrel : json_reload (VList records) = VList records).
    { simpl. f_equal. unfold records. rewrite map_map.
      apply map_ext_in. intros row Hin.
      apply json_reload_plain;
        [apply dict_reader_row_NoDup | apply short_row_plain; auto]. }
    assert (Hkeys : str_keyed (VList records) = true).
    { simpl. apply forallb_forall. intros r Hr. unfold records in Hr.
      apply in_map_iff in Hr. destruct Hr as [row [<- Hin]].
      apply json_reload_plain;
        [apply dict_reader_row_NoDup | apply short_row_plain; auto]. }
    assert (Hrec : forallb is_record records = true).
    { apply forallb_forall. intros r Hr. unfold records in Hr.
      apply in_map_iff in Hr. destruct Hr as [row [<- _]]. reflexivity. }
    rewrite Hrel in Hload.
    exists (sort_strings (strings_of (union_fields records))).
    destruct (header_facts records) as [Hsorted Hhead]. cbv zeta in Hhead.
    split; [| split; [exact Hsorted | split]].
    + rewrite (json_to_csv_dataset fs' q f' (VList records) records
                 Hf' Hload eq_refl Hkeys).
      cbv zeta. rewrite write_rows_records by exact Hrec.
      simpl app.
      set (header := sort_strings (strings_of (union_fields records))).
      assert (Hcells :
                map (fun r => map (expected_cell r) header) records
                = map (fun row => map (original_cell h row) header)
                      (nonblank data)).
      { unfold records. rewrite map_map. apply map_ext. intro row.
        apply map_ext. intro name. apply expected_cell_original. }
      rewrite Hcells. reflexivity.
    + intro name. rewrite Hhead. split.
      * intros [d [Hd Hname]]. unfold records in Hd.
        apply in_map_iff in Hd. destruct Hd as [row [[= <-] _]].
        now apply dict_reader_row_keys in Hname.
      * intro Hin. unfold records.
        destruct (nonblank data) as [|row rest] eqn:E; [congruence|].
        exists (dict_reader_row h row). split.
        -- now left.
        -- now apply dict_reader_row_keys.
    + intros row j name Hj Hlast. unfold original_cell.
      now rewrite (last_index_spec name h j Hj Hlast).
Qed.

Lemma csv_json_csv_round_trip_witness :
  let h := ["name"; "age"] in
  let data := [["Ada"; "36"]; []; ["Lin"]] in
  let f := csv_file (h :: data) in
  let fs := single_file "d.csv" f in
  fs "d.csv" = Some f
  /\ csv_rows f = h :: data
  /\ csv_error f = None
  /\ nonblank data <> []
  /\ Forall (fun row => List.length row <= List.length h) data
  /\ exists doc : value,
      csv_to_json fs "d.csv" = ret doc
      /\ exists header : list string,
          json_to_csv (single_file "d.json" (json_file (json_reload doc)))
            "d.json"
          = (Some (header
                   :: map (fun row => map (original_cell h row) header)
                          (nonblank data)),
             ret tt)
          /\ (forall name, In name header <-> In name h).
Proof.
  intros h data f fs.
  assert (H4 : nonblank data <> []) by discriminate.
  assert (H5 : Forall (fun row => List.length row <= List.length h) data).
  { repeat constructor. }
  split; [reflexivity |].
  split; [reflexivity |].
  split; [reflexivity |].
  split; [exact H4 |].
  split; [exact H5 |].
  destruct (csv_json_csv_round_trip fs "d.csv" f h data
              eq_refl eq_refl eq_refl H4 H5) as [doc [Hdoc Hback]].
  exists doc. split; [exact Hdoc |].
  destruct (Hback (single_file "d.json" (json_file (json_reload doc)))
              "d.json" (json_file (json_reload doc)) eq_refl eq_refl)
    as [header [H1 [_ [H2 _]]]].
  exists header. split; [exact H1 | exact H2].
Defined.

(** ** The command line *)

Lemma read_missing (fs : filesystem) (p : path) (max_rows : option Z) :
  fs p = None ->
  read_csv fs p max_rows
  = raise FileNotFoundError
      ("[Errno 2] No such file or directory: " ++ repr_str p)
  /\ read_json fs p max_rows
     = raise FileNotFoundError
         ("[Errno 2] No such file or directory: " ++ repr_str p).
Proof.
  intro H. unfold read_csv, read_json, path_open. rewrite H.
  split; reflexivity.
Qed.

(** C3 at its failing input. The [validate] subcommand has no existence
    check: for a missing primary path the reader raises and the program
    exits with status 1, where the [summary] subcommand exits with 2. *)
Theorem validate_missing_path_exits_1 :
  forall (fs : filesystem) (p schema_path : path),
    fs p = None ->
    main fs (Validate p schema_path)
    = Outcome 1
        ["Error: [Errno 2] No such file or directory: " ++ repr_str p] None
    /\ main fs (Summary p) = Outcome 2 ["File not found: " ++ p] None.
Proof.
  intros fs p schema_path H. split.
  - destruct (read_missing fs p None H) as [Hcsv Hjson].
    unfold main, load_rows, detect_and_read.
    rewrite Hcsv, Hjson.
    destruct (String.eqb (suffix_lower p) ".csv");
      [| destruct (String.eqb (suffix_lower p) ".json")]; reflexivity.
  - unfold main. rewrite H. reflexivity.
Qed.

Lemma validate_missing_path_exits_1_witness :
  let fs := single_file "schema.json" (json_file (VDict [])) in
  fs "missing.csv" = None
  /\ main fs (Validate "missing.csv" "schema.json")
     = Outcome 1
         ["Error: [Errno 2] No such file or directory: 'missing.csv'"] None
  /\ main fs (Summary "missing.csv")
     = Outcome 2 ["File not found: missing.csv"] None.
Proof.
  intro fs. split; [reflexivity |].
  exact (validate_missing_path_exits_1 fs "missing.csv" "schema.json" eq_refl).
Defined.

Lemma load_rows_other (fs : filesystem) (p : path) (max_rows : option Z) :
  suffix_lower p <> ".csv" ->
  suffix_lower p <> ".json" ->
  load_rows fs p max_rows = detect_and_read fs p max_rows.
Proof.
  intros H1 H2. unfold load_rows.
  apply String.eqb_neq in H1, H2. now rewrite H1, H2.
Qed.

(** C8. For a file whose extension is neither [.csv] nor [.json], both
    subcommands that read data try the hierarchical reader first and use
    its records when it succeeds; on any failure of it they use the
    delimited reader instead; and when that fails too the program
    reports the failure of the delimited reader, the second attempt, and
    exits with status 1. *)
Theorem detect_json_then_csv :
  forall (fs : filesystem) (p : path),
    suffix_lower p <> ".csv" ->
    suffix_lower p <> ".json" ->
    (forall sch,
        main fs (Validate p sch)
        = finish_validate fs sch (detect_and_read fs p None))
    /\ (forall file, fs p = Some file ->
        main fs (Summary p)
        = finish_summary (detect_and_read fs p (Some 20%Z)))
    /\ (forall n rows,
           read_json fs p n = ret rows -> detect_and_read fs p n = ret rows)
    /\ (forall n e1,
           read_json fs p n = inl e1 ->
           detect_and_read fs p n = read_csv fs p n)
    /\ (forall sch e1 e2,
           read_json fs p None = inl e1 ->
           read_csv fs p None = inl e2 ->
           main fs (Validate p sch) = Outcome 1 ["Error: " ++ exn_text e2] None)
    /\ (forall file e1 e2,
           fs p = Some file ->
           read_json fs p (Some 20%Z) = inl e1 ->
           read_csv fs p (Some 20%Z) = inl e2 ->
           main fs (Summary p) = Outcome 1 ["Error: " ++ exn_text e2] None).
Proof.
  intros fs p H1 H2.
  assert (Hv : forall sch,
             main fs (Validate p sch)
             = finish_validate fs sch (detect_and_read fs p None)).
  { intro sch. unfold main. now rewrite load_rows_other. }
  assert (Hs : forall file, fs p = Some file ->
             main fs (Summary p)
             = finish_summary (detect_and_read fs p (Some 20%Z))).
  { intros file Hf. unfold main. rewrite Hf. now rewrite load_rows_other. }
  split; [exact Hv |]. split; [exact Hs |].
  split; [| split; [| split]].
  - intros n rows H. unfold detect_and_read. now rewrite H.
  - intros n e1 H. unfold detect_and_read. now rewrite H.
  - intros sch e1 e2 Hj Hc. rewrite Hv. unfold detect_and_read.
    rewrite Hj, Hc. reflexivity.
  - intros file e1 e2 Hf Hj Hc. rewrite (Hs file Hf). unfold detect_and_read.
    rewrite Hj, Hc. reflexivity.
Qed.

Lemma detect_json_then_csv_witness :
  let e1 := Raise JSONDecodeError "Expecting value: line 1 column 1 (char 0)" in
  let e2 := Raise CsvError "line contains NUL" in
  let fs := single_file "data.txt" (File (inl e1) [] (Some e2)) in
  suffix_lower "data.txt" <> ".csv"
  /\ suffix_lower "data.txt" <> ".json"
  /\ read_json fs "data.txt" None = inl e1
  /\ read_csv fs "data.txt" None = inl e2
  /\ main fs (Validate "data.txt" "schema.json")
     = Outcome 1 ["Error: line contains NUL"] None.
Proof.
  intros e1 e2 fs.
  assert (H1 : suffix_lower "data.txt" <> ".csv") by discriminate.
  assert (H2 : suffix_lower "data.txt" <> ".json") by discriminate.
  split; [exact H1 |]. split; [exact H2 |].
  split; [reflexivity |]. split; [reflexivity |].
  destruct (detect_json_then_csv fs "data.txt" H1 H2)
    as (_ & _ & _ & _ & H & _).
  exact (H "schema.json" e1 e2 eq_refl eq_refl).
Defined.

(** Detection on the scenarios of the specification: hierarchical
    content is read by the first attempt, delimited content by the
    second. *)
Example detect_scenarios :
  detect_and_read (single_file "data.txt" (json_file (VList [VDict []])))
    "data.txt" None
  = ret [VDict []]
  /\ detect_and_read
       (single_file "data.txt"
          (csv_file [["name"; "age"]; ["Ada"; "36"]; ["Lin"; "29"]]))
       "data.txt" None
     = ret [VDict [(Some "name", VStr "Ada"); (Some "age", VStr "36")];
            VDict [(Some "name", VStr "Lin"); (Some "age", VStr "29")]].
Proof. split; reflexivity. Qed.

(** * Further properties of the code *)

(** ** The validator on whole datasets *)

(** One pair adds at most one line to the error list of a record. *)
Lemma check_field_record (i : nat) (d : dict) (field : key) (tname : value)
    (errors : list string) :
  exists e, check_field i (VDict d) field tname errors = ret (errors ++ e)%list
            /\ List.length e <= 1.
Proof.
  unfold check_field, obj_get, bind, ret.
  destruct (is_missing (dict_get_default d field VNone)).
  { eexists. split; [reflexivity | simpl; lia]. }
  destruct (tag_is tname "int").
  { destruct (int_ok (dict_get_default d field VNone)).
    - exists []. rewrite app_nil_r. split; [reflexivity | simpl; lia].
    - eexists. split; [reflexivity | simpl; lia]. }
  destruct (tag_is tname "float").
  { destruct (float_ok (dict_get_default d field VNone)).
    - exists []. rewrite app_nil_r. split; [reflexivity | simpl; lia].
    - eexists. split; [reflexivity | simpl; lia]. }
  destruct (tag_is tname "str").
  { exists []. rewrite app_nil_r. split; [reflexivity | simpl; lia]. }
  eexists. split; [reflexivity | simpl; lia].
Qed.

Lemma validate_fields_record (i : nat) (d : dict) (schema : dict) :
  forall errors : list string,
  exists e, validate_fields i (VDict d) schema errors = ret (errors ++ e)%list
            /\ List.length e <= List.length schema.
Proof.
  induction schema as [|[field tname] schema IH]; intro errors; simpl.
  - exists []. rewrite app_nil_r. split; [reflexivity | simpl; lia].
  - destruct (check_field_record i d field tname errors) as [e1 [H1 L1]].
    rewrite H1. simpl bind.
    destruct (IH (errors ++ e1)%list) as [e2 [H2 L2]].
    exists (e1 ++ e2)%list. rewrite H2, app_assoc.
    split; [reflexivity | rewrite length_app; lia].
Qed.

Lemma validate_rows_record (schema : dict) (rows : list value) :
  forall (i : nat) (errors : list string),
    forallb is_record rows = true ->
    exists e, validate_rows i rows schema errors = ret (errors ++ e)%list
              /\ List.length e <= List.length rows * List.length schema.
Proof.
  induction rows as [|r rows IH]; intros i errors H; simpl.
  - exists []. rewrite app_nil_r. split; [reflexivity | simpl; lia].
  - simpl in H. apply andb_true_iff in H. destruct H as [Hr Hrows].
    destruct r; try discriminate.
    destruct (validate_fields_record i entries schema errors) as [e1 [H1 L1]].
    rewrite H1. simpl bind.
    destruct (IH (S i) (errors ++ e1)%list Hrows) as [e2 [H2 L2]].
    exists (e1 ++ e2)%list. rewrite H2, app_assoc.
    split; [reflexivity | rewrite length_app; lia].
Qed.

Lemma pair_errors_length (i : nat) (d : dict) (kv : key * value) :
  List.length (pair_errors i (VDict d) kv) <= 1.
Proof.
  unfold pair_errors.
  destruct (check_field_record i d (fst kv) (snd kv) []) as [e [H L]].
  rewrite H. exact L.
Qed.

Lemma check_field_pair (i : nat) (d : dict) (field : key) (tname : value)
    (errors : list string) :
  check_field i (VDict d) field tname errors
  = ret (errors ++ pair_errors i (VDict d) (field, tname))%list.
Proof.
  unfold pair_errors. simpl fst. simpl snd.
  destruct (check_field_record i d field tname errors) as [e [H _]].
  destruct (check_field_record i d field tname []) as [e0 [H0 _]].
  rewrite H0. simpl in H0.
  assert (G : forall (acc : list string),
             check_field i (VDict d) field tname acc = ret (acc ++ e0)%list).
  { intro acc. unfold check_field in *.
    destruct (obj_get (VDict d) field VNone) as [ex | val]; simpl in *;
      [discriminate|].
    destruct (is_missing val); [injection H0 as <-; reflexivity|].
    destruct (tag_is tname "int").
    { destruct (int_ok val); injection H0 as <-;
        [now rewrite app_nil_r | reflexivity]. }
    destruct (tag_is tname "float").
    { destruct (float_ok val); injection H0 as <-;
        [now rewrite app_nil_r | reflexivity]. }
    destruct (tag_is tname "str"); injection H0 as <-;
      [now rewrite app_nil_r | reflexivity]. }
  apply G.
Qed.

Lemma validate_fields_pairs (i : nat) (d : dict) (schema : dict) :
  forall errors : list string,
    validate_fields i (VDict d) schema errors
    = ret (errors ++ flat_map (pair_errors i (VDict d)) schema)%list.
Proof.
  induction schema as [|[field tname] schema IH]; intro errors; simpl.
  - now rewrite app_nil_r.
  - rewrite check_field_pair. simpl bind. rewrite IH, <- app_assoc.
    reflexivity.
Qed.

Lemma validate_rows_pairs (schema : dict) (rows : list value) :
  forall (i : nat) (errors : list string),
    forallb is_record rows = true ->
    validate_rows i rows schema errors
    = ret (errors
           ++ List.concat (map (fun ir => flat_map (pair_errors (fst ir) (snd ir))
                                              schema)
                          (combine (seq i (List.length rows)) rows)))%list.
Proof.
  induction rows as [|r rows IH]; intros i errors H; simpl.
  - now rewrite app_nil_r.
  - simpl in H. apply andb_true_iff in H. destruct H as [Hr Hrows].
    destruct r; try discriminate.
    rewrite validate_fields_pairs. simpl bind.
    rewrite (IH (S i) _ Hrows), <- app_assoc. reflexivity.
Qed.

(** X1. On a dataset of records, as the readers yield them, the
    validator never raises.  Its result
    is, record after record and within a record field after field in the
    schema's order, the concatenation of what each (record, schema
    field) pair contributes, and each pair contributes at most one line;
    so there are at most [len(rows) * len(schema)] lines. *)
Theorem validate_records_total :
  forall (rows : list value) (schema : dict),
    forallb is_record rows = true ->
    forallb loadable rows = true ->
    validate_schema rows schema
    = ret (List.concat (map (fun ir => flat_map (pair_errors (fst ir) (snd ir))
                                           schema)
                       (combine (seq 0 (List.length rows)) rows)))
    /\ (forall i d kv, List.length (pair_errors i (VDict d) kv) <= 1)
    /\ (forall i d field tname errors,
           check_field i (VDict d) field tname errors
           = ret (errors ++ pair_errors i (VDict d) (field, tname))%list)
    /\ exists errors,
        validate_schema rows schema = ret errors
        /\ List.length errors <= List.length rows * List.length schema.
Proof.
  intros rows schema H _. split; [| split; [| split]].
  - unfold validate_schema. now rewrite validate_rows_pairs.
  - apply pair_errors_length.
  - apply check_field_pair.
  - destruct (validate_rows_record schema rows 0 [] H) as [e [H1 H2]].
    exists e. split; [exact H1 | exact H2].
Qed.

Lemma validate_records_total_witness :
  let rows := [VDict [(Some "a", VStr "x")]; VDict []] in
  let schema := [(Some "a", VStr "int"); (Some "b", VStr "str")] in
  forallb is_record rows = true
  /\ forallb loadable rows = true
  /\ validate_schema rows schema
     = ret ["row 1: field a expected int, got 'x'"; "row 1: missing b";
            "row 2: missing a"; "row 2: missing b"]
  /\ List.length (pair_errors 0 (VDict [(Some "a", VStr "x")])
                    (Some "a", VStr "int")) <= 1.
Proof.
  intros rows schema.
  destruct (validate_records_total rows schema eq_refl eq_refl)
    as (H1 & H2 & _).
  split; [reflexivity |]. split; [reflexivity |]. split.
  - etransitivity; [exact H1 | reflexivity].
  - apply H2.
Defined.

Lemma validate_fields_non_record (i : nat) (x : value) (schema : dict)
    (errors : list string) :
  is_record x = false ->
  schema <> [] ->
  validate_fields i x schema errors = attribute_error x "get".
Proof.
  intros Hx Hs. destruct schema as [|[field tname] schema]; [contradiction|].
  destruct x; try discriminate; reflexivity.
Qed.

(** X2. A dataset whose first non record element is [x] makes the
    validator raise the lookup failure of [x] as soon as the schema has a
    field; the lines gathered for the records before [x] are lost with
    it.  With an empty schema nothing is looked up and any dataset is
    valid. *)
Theorem validate_non_record_raises :
  forall (pre post : list value) (x : value) (schema : dict),
    forallb is_record pre = true ->
    is_record x = false ->
    (schema <> [] ->
     validate_schema (pre ++ x :: post)%list schema
     = raise AttributeError
         ("'" ++ type_name x ++ "' object has no attribute 'get'"))
    /\ validate_schema (pre ++ x :: post)%list [] = ret [].
Proof.
  intros pre post x schema Hpre Hx. split.
  - intro Hs. unfold validate_schema. rewrite validate_rows_app.
    destruct (validate_rows_record schema pre 0 [] Hpre) as [e [H _]].
    rewrite H. simpl bind.
    rewrite validate_fields_non_record by assumption. reflexivity.
  - unfold validate_schema. generalize 0.
    induction (pre ++ x :: post)%list as [|r rows IH]; intro i; simpl;
      [reflexivity | apply IH].
Qed.

Lemma validate_non_record_raises_witness :
  forallb is_record [VDict []] = true
  /\ is_record (VInt 7) = false
  /\ [(Some "a", VStr "str")] <> []
  /\ validate_schema ([VDict []] ++ VInt 7 :: [])%list [(Some "a", VStr "str")]
     = raise AttributeError "'int' object has no attribute 'get'".
Proof.
  assert (Hs : [(Some "a", VStr "str")] <> []) by discriminate.
  split; [reflexivity |]. split; [reflexivity |]. split; [exact Hs |].
  destruct (validate_non_record_raises [VDict []] [] (VInt 7)
              [(Some "a", VStr "str")] eq_refl eq_refl) as [H _].
  exact (H Hs).
Defined.

Lemma check_field_prefix (i : nat) (r : value) (field : key) (tname : value)
    (errors : list string) :
  check_field i r field tname errors
  = (e <- check_field i r field tname [] ;; ret (errors ++ e)%list).
Proof.
  unfold check_field. destruct (obj_get r field VNone) as [ex | val]; simpl.
  - reflexivity.
  - destruct (is_missing val); [reflexivity|].
    destruct (tag_is tname "int").
    { destruct (int_ok val); simpl; [now rewrite app_nil_r | reflexivity]. }
    destruct (tag_is tname "float").
    { destruct (float_ok val); simpl; [now rewrite app_nil_r | reflexivity]. }
    destruct (tag_is tname "str"); simpl;
      [now rewrite app_nil_r | reflexivity].
Qed.

Lemma validate_fields_prefix (i : nat) (r : value) (schema : dict) :
  forall errors : list string,
    validate_fields i r schema errors
    = (e <- validate_fields i r schema [] ;; ret (errors ++ e)%list).
Proof.
  induction schema as [|[field tname] schema IH]; intro errors; simpl.
  - now rewrite app_nil_r.
  - rewrite (check_field_prefix i r field tname errors).
    destruct (check_field i r field tname []) as [ex | e1]; simpl;
      [reflexivity|].
    rewrite (IH (errors ++ e1)%list), (IH e1).
    destruct (validate_fields i r schema []) as [ex | e2]; simpl;
      [reflexivity | now rewrite app_assoc].
Qed.

Lemma validate_rows_prefix (schema : dict) (rows : list value) :
  forall (i : nat) (errors : list string),
    validate_rows i rows schema errors
    = (e <- validate_rows i rows schema [] ;; ret (errors ++ e)%list).
Proof.
  induction rows as [|r rows IH]; intros i errors; simpl.
  - now rewrite app_nil_r.
  - rewrite (validate_fields_prefix i r schema errors).
    destruct (validate_fields i r schema []) as [ex | e1]; simpl;
      [reflexivity|].
    rewrite (IH (S i) (errors ++ e1)%list), (IH (S i) e1).
    destruct (validate_rows (S i) rows schema []) as [ex | e2]; simpl;
      [reflexivity | now rewrite app_assoc].
Qed.

(** X3. Validation is a scan that only appends: the lines for a dataset
    [rows1 ++ rows2] are the lines for [rows1] followed by the lines for
    [rows2] numbered from [len(rows1) + 1]; nothing already found is
    dropped or reordered, and a failure in either part fails the whole. *)
Theorem validate_schema_app :
  forall (rows1 rows2 : list value) (schema : dict),
    validate_schema (rows1 ++ rows2)%list schema
    = (e1 <- validate_schema rows1 schema ;;
       e2 <- validate_rows (List.length rows1) rows2 schema [] ;;
       ret (e1 ++ e2)%list).
Proof.
  intros rows1 rows2 schema. unfold validate_schema.
  rewrite validate_rows_app. simpl.
  destruct (validate_rows 0 rows1 schema []) as [ex | e1]; simpl;
    [reflexivity|].
  apply validate_rows_prefix.
Qed.

(** X4. A type tag other than [int], [float] and [str] gives the same
    "unknown schema type" line once for every record that has a value
    for the field: the line carries no row number and is not
    deduplicated. *)
Theorem validate_unknown_tag_every_record :
  forall (rows : list value) (field : key) (tname : value),
    tag_is tname "int" = false ->
    tag_is tname "float" = false ->
    tag_is tname "str" = false ->
    Forall (fun r => exists d v, r = VDict d
                                 /\ dict_get d field = Some v
                                 /\ is_missing v = false) rows ->
    validate_schema rows [(field, tname)]
    = ret (map (fun _ => "unknown schema type for " ++ str_of_key field
                         ++ ": " ++ py_str tname) rows).
Proof.
  intros rows field tname Hi Hf Hs Hrows. unfold validate_schema.
  assert (G : forall i errors,
             validate_rows i rows [(field, tname)] errors
             = ret (errors ++ map (fun _ => msg_unknown field tname) rows)%list).
  { induction Hrows as [|r rows Hr Hrows IH]; intros i errors; simpl.
    - now rewrite app_nil_r.
    - destruct Hr as [d [v [-> [Hget Hmiss]]]].
      unfold check_field, obj_get, dict_get_default. rewrite Hget. simpl bind.
      rewrite Hmiss, Hi, Hf, Hs. simpl bind.
      rewrite IH, <- app_assoc. reflexivity. }
  apply (G 0 []).
Qed.

Lemma validate_unknown_tag_every_record_witness :
  let rows := [VDict [(Some "a", VStr "1")]; VDict [(Some "a", VInt 2)]] in
  tag_is (VStr "integer") "int" = false
  /\ tag_is (VStr "integer") "float" = false
  /\ tag_is (VStr "integer") "str" = false
  /\ validate_schema rows [(Some "a", VStr "integer")]
     = ret ["unknown schema type for a: integer";
            "unknown schema type for a: integer"].
Proof.
  intro rows.
  split; [reflexivity |]. split; [reflexivity |]. split; [reflexivity |].
  apply (validate_unknown_tag_every_record rows (Some "a") (VStr "integer")
           eq_refl eq_refl eq_refl).
  repeat constructor.
  - exists [(Some "a", VStr "1")], (VStr "1"). repeat split.
  - exists [(Some "a", VInt 2)], (VInt 2). repeat split.
Defined.

(** ** The readers under any cap *)

Lemma read_csv_loop_prefix (max_rows : option Z) (tail : option exn)
    (records : list value) :
  forall (i : nat) (rows out : list value),
    read_csv_loop max_rows tail records i rows = ret out ->
    exists k, out = (rows ++ firstn k records)%list.
Proof.
  induction records as [|r records IH]; intros i rows out H; simpl in H.
  - destruct tail; [discriminate|]. injection H as <-.
    exists 0. now rewrite app_nil_r.
  - destruct (cap_reached max_rows i).
    + injection H as <-. exists 1. reflexivity.
    + destruct (IH _ _ _ H) as [k ->]. exists (S k).
      simpl. now rewrite <- app_assoc.
Qed.

Lemma slice_to_prefix (items : list value) (n : Z) :
  exists k, slice_to items n = firstn k items.
Proof. unfold slice_to. destruct (0 <=? n)%Z; eexists; reflexivity. Qed.

(** X5. Whatever the cap (none, zero, positive or negative), a reader
    that returns gives back a prefix of the records of its source: it
    never reorders, skips, repeats or invents a record.  A mapping root
    is returned as the one record it is. *)
Theorem readers_return_prefix :
  forall (fs : filesystem) (p : path) (max_rows : option Z)
         (out : list value),
    (read_csv fs p max_rows = ret out ->
     exists f k, fs p = Some f /\ out = firstn k (dict_reader (csv_rows f)))
    /\ (read_json fs p max_rows = ret out ->
        exists f, fs p = Some f
                  /\ ((exists items k,
                          json_load f = ret (VList items)
                          /\ out = firstn k items)
                      \/ (exists d, json_load f = ret (VDict d)
                                    /\ out = [VDict d]))).
Proof.
  intros fs p max_rows out. unfold read_csv, read_json, path_open. split.
  - destruct (fs p) as [f|]; simpl; [| discriminate]. intro H.
    apply read_csv_loop_prefix in H. destruct H as [k ->].
    exists f, k. split; reflexivity.
  - destruct (fs p) as [f|]; simpl; [| discriminate].
    destruct (json_load f) as [e | data] eqn:E; simpl; [discriminate|].
    destruct data; try discriminate; intros [= <-]; exists f;
      (split; [reflexivity|]).
    + left. exists items.
      destruct max_rows as [n|].
      * destruct (truthy (Some n)).
        -- destruct (slice_to_prefix items n) as [k Hk]. exists k.
           split; [exact E | exact Hk].
        -- exists (List.length items). split; [exact E|].
           now rewrite firstn_all.
      * exists (List.length items). split; [exact E|].
        now rewrite firstn_all.
    + right. exists entries. split; [exact E | reflexivity].
Qed.

Lemma readers_return_prefix_witness :
  let fs := single_file "d.csv" (csv_file [["a"]; ["1"]; ["2"]; ["3"]]) in
  let out := [VDict [(Some "a", VStr "1")]; VDict [(Some "a", VStr "2")]] in
  read_csv fs "d.csv" (Some 2%Z) = ret out
  /\ exists f k, fs "d.csv" = Some f
                 /\ out = firstn k (dict_reader (csv_rows f)).
Proof.
  intros fs out. split; [reflexivity |].
  destruct (readers_return_prefix fs "d.csv" (Some 2%Z) out) as [H _].
  exact (H eq_refl).
Defined.

Lemma read_cap_positive_witness :
  let f := File (ret (VList [VInt 1; VInt 2; VInt 3]))
                [["a"]; ["1"]; ["2"]; ["3"]] None in
  let fs := single_file "d" f in
  fs "d" = Some f
  /\ (1 <= 2)%Z
  /\ read_csv fs "d" (Some 2%Z)
     = ret [VDict [(Some "a", VStr "1")]; VDict [(Some "a", VStr "2")]]
  /\ read_json fs "d" (Some 2%Z) = ret [VInt 1; VInt 2].
Proof.
  intros f fs.
  assert (Hn : (1 <= 2)%Z) by lia.
  destruct (read_cap_positive fs "d" f 2%Z eq_refl Hn) as [H1 [H2 _]].
  split; [reflexivity |]. split; [exact Hn |]. split.
  - etransitivity; [exact (H1 eq_refl) | reflexivity].
  - etransitivity; [exact (H2 _ eq_refl) | reflexivity].
Defined.

(** X7. The delimited reader stops at the cap without asking for one
    more row: a cap within the number of records returns the first [n]
    records even when the text after them is malformed, while reading
    without a cap raises that error. *)
Theorem read_csv_cap_before_error :
  forall (fs : filesystem) (p : path) (f : file) (e : exn) (n : Z),
    fs p = Some f ->
    csv_error f = Some e ->
    (1 <= n <= Z.of_nat (List.length (dict_reader (csv_rows f))))%Z ->
    read_csv fs p (Some n)
    = ret (firstn (Z.to_nat n) (dict_reader (csv_rows f)))
    /\ read_csv fs p None = inl e.
Proof.
  intros fs p f e n Hf He Hn. unfold read_csv, path_open. rewrite Hf. simpl.
  split.
  - rewrite read_csv_loop_capped; [now rewrite Nat.sub_0_r | lia |].
    right. lia.
  - rewrite read_csv_loop_all, He. reflexivity.
Qed.

Lemma read_csv_cap_before_error_witness :
  let e := Raise CsvError "line contains NUL" in
  let f := File (inl e) [["a"]; ["1"]; ["2"]] (Some e) in
  let fs := single_file "d.csv" f in
  fs "d.csv" = Some f
  /\ csv_error f = Some e
  /\ (1 <= 2 <= Z.of_nat (List.length (dict_reader (csv_rows f))))%Z
  /\ read_csv fs "d.csv" (Some 2%Z)
     = ret [VDict [(Some "a", VStr "1")]; VDict [(Some "a", VStr "2")]]
  /\ read_csv fs "d.csv" None = inl e.
Proof.
  intros e f fs.
  assert (Hn : (1 <= 2 <= Z.of_nat (List.length (dict_reader (csv_rows f))))%Z)
    by (simpl; lia).
  destruct (read_csv_cap_before_error fs "d.csv" f e 2%Z eq_refl eq_refl Hn)
    as [H1 H2].
  split; [reflexivity |]. split; [reflexivity |]. split; [exact Hn |].
  split; [etransitivity; [exact H1 | reflexivity] | exact H2].
Defined.

(** X8. A negative cap is not rejected: the delimited reader stops after
    its first record, and the hierarchical reader slices from the end,
    dropping the last [-n] elements of a list root. *)
Theorem read_negative_cap :
  forall (fs : filesystem) (p : path) (f : file) (n : Z),
    fs p = Some f ->
    (n < 0)%Z ->
    read_csv fs p (Some n)
    = match dict_reader (csv_rows f) with
      | r :: _ => ret [r]
      | [] => match csv_error f with
              | Some e => inl e
              | None => ret []
              end
      end
    /\ forall items,
        json_load f = ret (VList items) ->
        read_json fs p (Some n)
        = ret (firstn (List.length items - Z.to_nat (- n)) items).
Proof.
  intros fs p f n Hf Hn. unfold read_csv, read_json, path_open.
  rewrite Hf. simpl. split.
  - destruct (dict_reader (csv_rows f)) as [|r records]; simpl.
    + destruct (csv_error f); reflexivity.
    + destruct (n =? 0)%Z eqn:E0; [apply Z.eqb_eq in E0; lia|].
      assert (E1 : (n <=? 1)%Z = true) by (apply Z.leb_le; lia).
      rewrite E1. reflexivity.
  - intros items ->. simpl.
    destruct (n =? 0)%Z eqn:E0; [apply Z.eqb_eq in E0; lia|]. simpl.
    unfold slice_to.
    destruct (0 <=? n)%Z eqn:E1; [apply Z.leb_le in E1; lia|].
    do 2 f_equal. lia.
Qed.

Lemma read_negative_cap_witness :
  let f := File (ret (VList [VInt 1; VInt 2; VInt 3]))
                [["a"]; ["1"]; ["2"]; ["3"]] None in
  let fs := single_file "d" f in
  fs "d" = Some f
  /\ (-1 < 0)%Z
  /\ read_csv fs "d" (Some (-1)%Z) = ret [VDict [(Some "a", VStr "1")]]
  /\ read_json fs "d" (Some (-1)%Z) = ret [VInt 1; VInt 2].
Proof.
  intros f fs.
  assert (Hn : (-1 < 0)%Z) by lia.
  destruct (read_negative_cap fs "d" f (-1)%Z eq_refl Hn) as [H1 H2].
  split; [reflexivity |]. split; [exact Hn |]. split.
  - etransitivity; [exact H1 | reflexivity].
  - etransitivity; [exact (H2 _ eq_refl) | reflexivity].
Defined.

Lemma read_csv_loop_bound (n : Z) (tail : option exn) (records : list value) :
  forall (i : nat) (rows out : list value),
    (Z.of_nat i < n)%Z ->
    read_csv_loop (Some n) tail records i rows = ret out ->
    List.length out <= List.length rows + (Z.to_nat n - i).
Proof.
  induction records as [|r records IH]; intros i rows out Hi H; simpl in H.
  - destruct tail; [discriminate|]. injection H as <-. lia.
  - destruct (negb (n =? 0)%Z && (n <=? Z.of_nat i + 1)%Z) eqn:E.
    + injection H as <-. rewrite length_app. simpl. lia.
    + apply andb_false_iff in E. destruct E as [E | E].
      * apply negb_false_iff, Z.eqb_eq in E. lia.
      * apply Z.leb_gt in E. apply IH in H; [| lia].
        rewrite length_app in H. simpl in H. lia.
Qed.

(** X9. With a cap [n >= 1] no path through the readers, the extension
    dispatch and the try-one-then-the-other detection included, hands
    more than [n] records to the caller: [summary] works on 20 records
    at most. *)
Theorem load_rows_bounded :
  forall (fs : filesystem) (p : path) (n : Z) (rows : list value),
    (1 <= n)%Z ->
    load_rows fs p (Some n) = ret rows ->
    List.length rows <= Z.to_nat n.
Proof.
  intros fs p n rows Hn.
  assert (Hcsv : forall out, read_csv fs p (Some n) = ret out ->
                             List.length out <= Z.to_nat n).
  { intros out H. unfold read_csv, path_open in H.
    destruct (fs p) as [f|]; simpl in H; [| discriminate].
    apply read_csv_loop_bound in H; [simpl in H; lia | lia]. }
  assert (Hjson : forall out, read_json fs p (Some n) = ret out ->
                              List.length out <= Z.to_nat n).
  { intros out H. unfold read_json, path_open in H.
    destruct (fs p) as [f|]; simpl in H; [| discriminate].
    destruct (json_load f) as [e | data]; simpl in H; [discriminate|].
    destruct data; try discriminate; injection H as <-.
    - destruct (n =? 0)%Z eqn:E0; [apply Z.eqb_eq in E0; lia|]. simpl.
      unfold slice_to.
      destruct (0 <=? n)%Z eqn:E1; [| apply Z.leb_gt in E1; lia].
      apply firstn_le_length.
    - simpl. lia. }
  unfold load_rows, detect_and_read, try_except.
  destruct (String.eqb (suffix_lower p) ".csv"); [apply Hcsv|].
  destruct (String.eqb (suffix_lower p) ".json"); [apply Hjson|].
  destruct (read_json fs p (Some n)) as [e | out] eqn:E.
  - apply Hcsv.
  - intro H. apply Hjson. now rewrite <- H.
Qed.

Lemma load_rows_bounded_witness :
  let fs := single_file "d.txt" (csv_file [["a"]; ["1"]; ["2"]; ["3"]]) in
  let rows := [VDict [(Some "a", VStr "1")]; VDict [(Some "a", VStr "2")]] in
  (1 <= 2)%Z
  /\ load_rows fs "d.txt" (Some 2%Z) = ret rows
  /\ List.length rows <= Z.to_nat 2.
Proof.
  intros fs rows.
  assert (Hn : (1 <= 2)%Z) by lia.
  split; [exact Hn |]. split; [reflexivity |].
  exact (load_rows_bounded fs "d.txt" 2%Z rows Hn eq_refl).
Defined.

Lemma combine_keys (h : list string) :
  forall row : list string,
    List.length row = List.length h ->
    dict_keys (combine (map Some h) (map VStr row)) = map Some h.
Proof.
  induction h as [|name h IH]; intros row H; simpl.
  - reflexivity.
  - destruct row as [|c row]; [discriminate|]. simpl. f_equal.
    apply IH. simpl in H. lia.
Qed.

Lemma NoDup_map_Some (h : list string) : NoDup h -> NoDup (map Some h).
Proof.
  induction h as [|name h IH]; intro H; simpl; [constructor|].
  inversion H as [|? ? Hnot Hnd]; subst. constructor; [| now apply IH].
  rewrite in_map_iff. intros [x [[= ->] Hx]]. contradiction.
Qed.

Lemma dict_reader_row_rectangular (h row : list string) :
  NoDup h ->
  List.length row = List.length h ->
  dict_reader_row h row = combine (map Some h) (map VStr row).
Proof.
  intros Hnd Hlen. unfold dict_reader_row.
  rewrite Hlen, Nat.ltb_irrefl. apply dict_of_pairs_id.
  rewrite combine_keys by exact Hlen.
  now apply NoDup_map_Some.
Qed.

(** X10. For a delimited file whose header names are distinct and whose
    non blank rows all have as many cells as the header, the document
    [csv_to_json] hands to [json.dump] is the list, in file order, of the
    records pairing the header names, in header order, with the cells as
    text. *)
Theorem csv_to_json_rectangular :
  forall (fs : filesystem) (p : path) (f : file)
         (h : list string) (data : list (list string)),
    fs p = Some f ->
    csv_rows f = h :: data ->
    csv_error f = None ->
    NoDup h ->
    Forall (fun row => row = [] \/ List.length row = List.length h) data ->
    csv_to_json fs p
    = ret (VList (map (fun row => VDict (combine (map Some h) (map VStr row)))
                      (nonblank data))).
Proof.
  intros fs p f h data Hf Hrows Herr Hnd Hrect.
  unfold csv_to_json, path_open. rewrite Hf. simpl bind.
  rewrite Herr, Hrows, read_csv_loop_all. simpl. do 2 f_equal.
  apply map_ext_in. intros row Hin. f_equal.
  apply filter_In in Hin. destruct Hin as [Hin Hnb].
  rewrite Forall_forall in Hrect.
  destruct (Hrect row Hin) as [-> | Hlen]; [discriminate|].
  now apply dict_reader_row_rectangular.
Qed.

Lemma csv_to_json_rectangular_witness :
  let h := ["name"; "age"] in
  let data := [["Ada"; "36"]; []; ["Lin"; "29"]] in
  let f := csv_file (h :: data) in
  let fs := single_file "d.csv" f in
  fs "d.csv" = Some f
  /\ csv_rows f = h :: data
  /\ csv_error f = None
  /\ NoDup h
  /\ Forall (fun row => row = [] \/ List.length row = List.length h) data
  /\ csv_to_json fs "d.csv"
     = ret (VList [VDict [(Some "name", VStr "Ada"); (Some "age", VStr "36")];
                   VDict [(Some "name", VStr "Lin"); (Some "age", VStr "29")]]).
Proof.
  intros h data f fs.
  assert (Hnd : NoDup h).
  { unfold h. constructor; [| constructor; [| constructor]]; simpl.
    - intros [H | []]. discriminate.
    - intros []. }
  assert (Hrect : Forall (fun row => row = [] \/ List.length row = List.length h)
                         data).
  { unfold data, h. constructor; [now right |].
    constructor; [now left |]. constructor; [now right | constructor]. }
  split; [reflexivity |]. split; [reflexivity |]. split; [reflexivity |].
  split; [exact Hnd |]. split; [exact Hrect |].
  etransitivity;
    [exact (csv_to_json_rectangular fs "d.csv" f h data
              eq_refl eq_refl eq_refl Hnd Hrect) | reflexivity].
Defined.

(** ** The shape of the flattener's output *)

Lemma dict_writer_row_length (fields : list key) (row : dict)
    (cells : list string) :
  dict_writer_row fields row = ret cells ->
  List.length cells = List.length fields.
Proof.
  unfold dict_writer_row.
  destruct (filter _ (dict_keys row)); [| discriminate].
  intros [= <-]. apply length_map.
Qed.

Lemma write_rows_shape (fields : list key) (items : list value) :
  forall (out out' : list (list string)) (r : result unit),
    write_rows fields items out = (out', r) ->
    exists rows,
      out' = (out ++ rows)%list
      /\ Forall (fun row => List.length row = List.length fields) rows
      /\ List.length rows <= List.length items
      /\ (r = ret tt -> List.length rows = List.length items).
Proof.
  induction items as [|item items IH]; intros out out' r H; simpl in H.
  - injection H as <- <-. exists []. rewrite app_nil_r.
    repeat split; [constructor | simpl; lia].
  - destruct (row <- build_row item fields [] ;; dict_writer_row fields row)
      as [e | cells] eqn:E.
    + injection H as <- <-. exists []. rewrite app_nil_r.
      repeat split; [constructor | simpl; lia | discriminate].
    + destruct (IH _ _ _ H) as [rows [-> [Hall [Hle Hok]]]].
      exists (cells :: rows). rewrite <- app_assoc.
      assert (Hlen : List.length cells = List.length fields).
      { destruct (build_row item fields []) as [e | row]; simpl in E;
          [discriminate|].
        now apply dict_writer_row_length in E. }
      repeat split.
      * constructor; assumption.
      * simpl. lia.
      * intro Hr. simpl. f_equal. now apply Hok.
Qed.



Lemma first_non_record (items : list value) :
  forallb is_record items = false ->
  exists pre x post,
    items = (pre ++ x :: post)%list
    /\ forallb is_record pre = true
    /\ is_record x = false.
Proof.
  induction items as [|item items IH]; simpl; intro H; [discriminate|].
  destruct (is_record item) eqn:E.
  - destruct (IH H) as [pre [x [post [-> [Hpre Hx]]]]].
    exists (item :: pre), x, post. simpl. rewrite E. auto.
  - exists [], item, items. auto.
Qed.

(** X12. Whatever fails on the output side, the flattener can end
    without error only if every element of the dataset is a record or no
    record of it has any field: one element that is not a record makes
    the conversion fail as soon as there is a column to look up. *)
Theorem json_to_csv_succeeds_only_if :
  forall (w : output_faults) (fs : filesystem) (p : path) (f : file)
         (doc : value) (items : list value),
    fs p = Some f ->
    json_load f = ret doc ->
    dataset_of doc = Some items ->
    str_keyed doc = true ->
    snd (json_to_csv_run w fs p) = ret tt ->
    forallb is_record items = true
    \/ (forall d, In (VDict d) items -> d = []).
Proof.
  intros w fs p f doc items Hf Hload Hdata Hkeys Hrun.
  assert (H : snd (json_to_csv fs p) = ret tt).
  { destruct (json_to_csv_run w fs p) as [[out|] r] eqn:E; simpl in Hrun;
      subst r.
    - now rewrite (json_to_csv_run_success w fs p out E).
    - exfalso. unfold json_to_csv_run in E.
      destruct (f0 <- path_open fs p ;; json_load f0) as [e | data];
        [discriminate|].
      destruct (match data with VDict _ => VList [data] | _ => data end)
        as [| | | | | l |]; try discriminate.
      destruct (sorted_keys (union_fields l)); [discriminate|].
      destruct (open_fault w); [discriminate|].
      destruct (match dict_writer_header l0 with
                | inl e => ([], inl e)
                | inr header =>
                    match row_fault w [] header with
                    | Some e => ([], inl e)
                    | None => write_rows_run w l0 l [header]
                    end
                end); discriminate. }
  clear Hrun. revert H.
  rewrite (json_to_csv_dataset fs p f doc items Hf Hload Hdata Hkeys).
  cbv zeta.
  destruct (header_facts items) as [_ Hhead]. cbv zeta in Hhead.
  set (header := sort_strings (strings_of (union_fields items))) in *.
  intro H. destruct (forallb is_record items) eqn:Hrec; [now left | right].
  destruct (first_non_record items Hrec) as [pre [x [post [E [Hpre Hx]]]]].
  destruct header as [|name rest] eqn:Eh.
  - intros d Hd. destruct d as [|[k v] d]; [reflexivity | exfalso].
    destruct k as [name|].
    + apply (proj2 (Hhead name)). exists ((Some name, v) :: d).
      split; [exact Hd | now left].
    + assert (Hk : str_keyed (VList items) = true)
        by (apply (str_keyed_dataset doc); assumption).
      simpl in Hk. rewrite forallb_forall in Hk. specialize (Hk _ Hd).
      discriminate.
  - exfalso. rewrite E in H.
    rewrite (write_rows_stop (name :: rest) pre post x) in H;
      [| assumption | assumption | discriminate].
    simpl in H. destruct x; discriminate.
Qed.

Lemma json_to_csv_succeeds_only_if_witness :
  let doc := VList [VDict []; VInt 1] in
  let f := json_file doc in
  let fs := single_file "d.json" f in
  fs "d.json" = Some f
  /\ json_load f = ret doc
  /\ dataset_of doc = Some [VDict []; VInt 1]
  /\ str_keyed doc = true
  /\ snd (json_to_csv_run no_output_fault fs "d.json") = ret tt
  /\ (forallb is_record [VDict []; VInt 1] = true
      \/ (forall d, In (VDict d) [VDict []; VInt 1] -> d = [])).
Proof.
  intros doc f fs.
  split; [reflexivity |]. split; [reflexivity |]. split; [reflexivity |].
  split; [reflexivity |]. split; [reflexivity |].
  exact (json_to_csv_succeeds_only_if no_output_fault fs "d.json" f doc
           [VDict []; VInt 1]
           eq_refl eq_refl eq_refl eq_refl eq_refl).
Defined.

Lemma str_lt_irrefl (a : string) : ~ str_lt a a.
Proof.
  unfold str_lt. intro H. pose proof (String.compare_antisym a a) as G.
  rewrite H in G. discriminate.
Qed.




(** ** Standard output *)

Lemma fold_bind_inl {A : Type} (G : result unit -> A -> result unit)
    (l : list A) (e : exn) :
  (forall acc a, acc = inl e -> G acc a = inl e) ->
  fold_left G l (inl e) = inl e.
Proof.
  intro H. induction l as [|a l IH]; simpl; [reflexivity|].
  now rewrite (H (inl e) a eq_refl).
Qed.

Lemma snd_print_columns (r : value) (columns : list key) :
  forall out : list string,
    snd (print_columns r columns out)
    = fold_left (fun acc c => _ <- acc ;; _ <- obj_get r c (VStr "") ;; ret tt)
                columns (ret tt).
Proof.
  induction columns as [|c columns IH]; intro out; simpl.
  - reflexivity.
  - destruct (obj_get r c (VStr "")) as [e | v]; simpl.
    + symmetry. apply fold_bind_inl. intros acc a ->. reflexivity.
    + apply IH.
Qed.

Lemma snd_print_rows (columns : list key) (rows : list value) :
  forall (i : nat) (out : list string),
    snd (print_rows i rows columns out)
    = fold_left
        (fun acc r =>
           _ <- acc ;;
           fold_left (fun acc c => _ <- acc ;; _ <- obj_get r c (VStr "") ;; ret tt)
                     columns (ret tt))
        rows (ret tt).
Proof.
  induction rows as [|r rows IH]; intros i out.
  - reflexivity.
  - cbn [print_rows fold_left].
    rewrite <- (snd_print_columns r columns
                  (out ++ [("Row " ++ str_of_nat (i + 1) ++ ":")%string])%list).
    destruct (print_columns r columns
                (out ++ [("Row " ++ str_of_nat (i + 1) ++ ":")%string])%list)
      as [out' [e | []]]; cbn [snd bind ret].
    + symmetry. apply fold_bind_inl. intros acc a ->. reflexivity.
    + apply IH.
Qed.

(** The printing model raises exactly when [summarize_rows] does. *)
Lemma summarize_rows_output_result (rows : list value) (show : nat) :
  snd (summarize_rows_output rows show) = summarize_rows rows show.
Proof.
  unfold summarize_rows_output, summarize_rows.
  destruct rows as [|first rest]; [reflexivity|].
  destruct first; try reflexivity.
  simpl bind. apply snd_print_rows.
Qed.

(** [run] is [main] together with what is printed. *)
Lemma run_outcome (fs : filesystem) (cmd : command) :
  snd (run fs cmd) = main fs cmd.
Proof.
  destruct cmd as [p | a b | a b | p s]; simpl.
  - destruct (fs p); [| reflexivity]. unfold finish_summary.
    destruct (load_rows fs p (Some 20%Z)) as [e | rows]; simpl;
      [reflexivity|].
    rewrite <- summarize_rows_output_result.
    destruct (summarize_rows_output rows 5) as [out [e | []]]; reflexivity.
  - destruct (csv_to_json fs a); reflexivity.
  - destruct (json_to_csv fs a) as [w [e | []]]; reflexivity.
  - unfold finish_validate.
    destruct (rows <- load_rows fs p None ;;
              schema <- load_schema fs s ;; validate_schema rows schema)
      as [e | [|x errors]]; reflexivity.
Qed.

Lemma cp_length_app (a b : string) :
  cp_length (a ++ b) = cp_length a + cp_length b.
Proof.
  induction a as [|c a IH]; simpl; [reflexivity|]. rewrite IH. lia.
Qed.

Lemma cp_length_take (s : string) :
  forall n, cp_length (cp_take n s) = Nat.min n (cp_length s).
Proof.
  induction s as [|c s IH]; intro n.
  - simpl. now rewrite Nat.min_0_r.
  - cbn [cp_take cp_length]. destruct (is_continuation c) eqn:E.
    + cbn [cp_length]. rewrite E. simpl. apply IH.
    + destruct n as [|m]; cbn [cp_length]; [reflexivity|].
      rewrite E, IH. reflexivity.
Qed.

(** X14. A value of the summary is shown in at most 80 characters: text
    of up to 80 characters is shown as it is, longer text as its first
    77 characters followed by three dots, 80 characters in all. *)
Theorem trim_value_width :
  forall vstr : string,
    cp_length (trim_value vstr) <= 80
    /\ (cp_length vstr <= 80 -> trim_value vstr = vstr)
    /\ (80 < cp_length vstr ->
        trim_value vstr = cp_take 77 vstr ++ "..."
        /\ cp_length (trim_value vstr) = 80).
Proof.
  intro vstr. unfold trim_value.
  destruct (80 <? cp_length vstr) eqn:E.
  - apply Nat.ltb_lt in E.
    assert (G : cp_length (cp_take 77 vstr ++ "...") = 80).
    { rewrite cp_length_app, cp_length_take.
      change (cp_length "...") with 3. lia. }
    split; [lia |]. split; [lia |]. intros _. split; [reflexivity | exact G].
  - apply Nat.ltb_ge in E. split; [exact E |]. split; [reflexivity | lia].
Qed.

Lemma trim_value_width_witness :
  let long := "0123456789012345678901234567890123456789"
              ++ "0123456789012345678901234567890123456789x" in
  80 < cp_length long
  /\ cp_length (trim_value long) = 80
  /\ cp_length "abc" <= 80
  /\ trim_value "abc" = "abc".
Proof.
  intro long.
  assert (H1 : 80 < cp_length long) by (vm_compute; lia).
  assert (H2 : cp_length "abc" <= 80) by (vm_compute; lia).
  destruct (trim_value_width long) as (_ & _ & G).
  destruct (trim_value_width "abc") as (_ & G' & _).
  split; [exact H1 |]. split; [exact (proj2 (G H1)) |].
  split; [exact H2 | exact (G' H2)].
Defined.






Lemma validation_report_length (errors : list string) :
  List.length (validation_report errors) <= 201.
Proof.
  unfold validation_report. destruct errors as [|x errors].
  - simpl. lia.
  - set (l := firstn 200 (x :: errors)).
    assert (H : List.length l <= 200) by apply firstn_le_length.
    clearbody l. cbn [List.length]. rewrite length_map. lia.
Qed.

Lemma print_all_prefix (fault : print_oracle) :
  forall (texts out out' : list string) (r : result unit),
    print_all fault texts out = (out', r) ->
    exists done rest,
      texts = (done ++ rest)%list
      /\ out' = (out ++ done)%list
      /\ match r with inr _ => rest = [] | inl _ => rest <> [] end.
Proof.
  induction texts as [|t texts IH]; intros out out' r H; simpl in H.
  - injection H as <- <-. exists [], [].
    split; [reflexivity | split; [symmetry; apply app_nil_r | reflexivity]].
  - destruct (fault out t) as [e|] eqn:E.
    + injection H as <- <-. exists [], (t :: texts).
      split; [reflexivity |].
      split; [symmetry; apply app_nil_r | discriminate].
    + destruct (IH _ _ _ H) as [done [rest [-> [-> Hr]]]].
      exists (t :: done), rest. rewrite <- app_assoc.
      split; [reflexivity | split; [reflexivity | exact Hr]].
Qed.

Lemma print_all_no_fault :
  forall texts out : list string,
    print_all no_fault texts out = ((out ++ texts)%list, ret tt).
Proof.
  induction texts as [|t texts IH]; intro out; simpl.
  - now rewrite app_nil_r.
  - rewrite IH, <- app_assoc. reflexivity.
Qed.

Lemma validate_run_no_fault (fs : filesystem) (p schema_path : path) :
  validate_run no_fault fs p schema_path = run fs (Validate p schema_path).
Proof.
  unfold validate_run, run.
  destruct (rows <- load_rows fs p None ;;
            schema <- load_schema fs schema_path ;;
            validate_schema rows schema) as [e | errors]; [reflexivity|].
  rewrite print_all_no_fault. reflexivity.
Qed.

(** X16. Whichever of its prints fail, [validate] completes at most 201
    of them (a heading and the first 200 errors) and they are the first
    ones of its report, in order; it exits with 0 exactly when the one
    completed print is the success line; when it exits with 3 every line
    of the report was printed: the heading and the first 200 errors; a
    print that fails ends the run with status 1; and when no print fails
    the run is the one of [run]. *)
Theorem validate_report_bounded :
  forall (fault : print_oracle) (fs : filesystem) (p schema_path : path)
         (out : list string) (o : outcome),
    validate_run fault fs p schema_path = (out, o) ->
    List.length out <= 201
    /\ (exit_code o = 0%Z <-> out = ["Validation passed " ++ check_mark])
    /\ (exit_code o = 3%Z ->
        exists errors,
          (rows <- load_rows fs p None ;;
           schema <- load_schema fs schema_path ;;
           validate_schema rows schema) = ret errors
          /\ errors <> []
          /\ out = "Validation found errors:"
                   :: map (fun e => " - " ++ e) (firstn 200 errors))
    /\ (forall errors,
           (rows <- load_rows fs p None ;;
            schema <- load_schema fs schema_path ;;
            validate_schema rows schema) = ret errors ->
           exists rest,
             validation_report errors = (out ++ rest)%list
             /\ (rest <> [] <-> exit_code o = 1%Z))
    /\ (forall e,
           (rows <- load_rows fs p None ;;
            schema <- load_schema fs schema_path ;;
            validate_schema rows schema) = inl e ->
           out = [] /\ o = error_exit e None)
    /\ validate_run no_fault fs p schema_path
       = run fs (Validate p schema_path).
Proof.
  intros fault fs p schema_path out o H.
  pose proof (validate_run_no_fault fs p schema_path) as Hrun.
  unfold validate_run in H.
  destruct (rows <- load_rows fs p None ;;
            schema <- load_schema fs schema_path ;;
            validate_schema rows schema) as [e | errors] eqn:E.
  - assert (Hout : out = []) by (now injection H as <- _).
    assert (Ho : o = error_exit e None) by (now injection H as _ <-).
    subst out o.
    split; [simpl; lia |]. split; [split; discriminate |].
    split; [discriminate |]. split; [discriminate |].
    split; [| exact Hrun].
    intros e' [= <-]. split; reflexivity.
  - destruct (print_all fault (validation_report errors) []) as [out' r] eqn:P.
    destruct (print_all_prefix fault _ _ _ _ P) as [done [rest [Hrep [Hdone Hr]]]].
    simpl in Hdone. subst out'.
    assert (Hlen : List.length done <= 201).
    { pose proof (validation_report_length errors) as L.
      rewrite Hrep, length_app in L. lia. }
    destruct r as [e | u].
    + assert (Hout : out = done) by (now injection H as <- _).
      assert (Ho : o = error_exit e None) by (now injection H as _ <-).
      subst out o.
      split; [exact Hlen |]. split; [| split; [| split; [| split]]].
      * split; [discriminate |]. intros ->.
        exfalso. unfold validation_report in Hrep.
        destruct errors as [|x errors].
        -- destruct rest; [now apply Hr | discriminate].
        -- injection Hrep as Hrep _. vm_compute in Hrep. discriminate.
      * discriminate.
      * intros errors' [= <-]. exists rest.
        split; [exact Hrep |]. split; [reflexivity | intros _; exact Hr].
      * discriminate.
      * exact Hrun.
    + subst rest. rewrite app_nil_r in Hrep. subst done.
      assert (Hout : out = validation_report errors)
        by (now injection H as <- _).
      assert (Ho : o = match errors with
                       | [] => Outcome 0 [] None
                       | _ :: _ => Outcome 3 [] None
                       end) by (now injection H as _ <-).
      subst out o.
      split; [exact Hlen |]. split; [| split; [| split; [| split]]].
      * destruct errors as [|x errors]; [split; reflexivity |].
        split; [discriminate |]. unfold validation_report.
        intro G. injection G as G _. vm_compute in G. discriminate.
      * destruct errors as [|x errors]; [discriminate |].
        intros _. exists (x :: errors).
        split; [reflexivity | split; [discriminate | reflexivity]].
      * intros errors' [= <-]. exists []. rewrite app_nil_r.
        split; [reflexivity |].
        split; [intro G; now contradiction G |].
        destruct errors; discriminate.
      * discriminate.
      * exact Hrun.
Qed.

Lemma validate_report_bounded_witness :
  let fs := single_file "d.json" (json_file (VDict [(Some "a", VStr "int")])) in
  let fault : print_oracle :=
    fun out _ => match out with
                 | [_] => Some (Raise UnicodeEncodeError "cannot encode")
                 | _ => None
                 end in
  validate_run fault fs "d.json" "d.json"
  = (["Validation found errors:"],
     Outcome 1 ["Error: cannot encode"] None)
  /\ validate_run no_fault fs "d.json" "d.json"
     = (["Validation found errors:";
         " - row 1: field a expected int, got 'int'"],
        Outcome 3 [] None)
  /\ List.length ["Validation found errors:"] <= 201
  /\ exists rest,
      validation_report ["row 1: field a expected int, got 'int'"]
      = (["Validation found errors:"] ++ rest)%list
      /\ (rest <> [] <-> 1 = 1)%Z.
Proof.
  intros fs fault. split; [reflexivity |]. split; [reflexivity |].
  destruct (validate_report_bounded fault fs "d.json" "d.json" _ _ eq_refl)
    as (H1 & _ & _ & H4 & _).
  split; [exact H1 |].
  exact (H4 ["row 1: field a expected int, got 'int'"] eq_refl).
Defined.

(** X17. The count a successful conversion reports is the number of
    records it wrote: for [convert-to-csv] the number of data rows of the
    output file (the header apart), for [convert-to-json] the number of
    records of the document, one per record the delimited reader
    yields. *)
Theorem convert_reports_rows_written :
  (forall (fs : filesystem) (p out_path : path) (f : file) (doc : value)
          (lines : list string) (o : outcome),
      fs p = Some f ->
      json_load f = ret doc ->
      str_keyed doc = true ->
      run fs (ConvertToCsv p out_path) = (lines, o) ->
      exit_code o = 0%Z ->
      exists header rows,
        written o = Some (out_path, CsvDocument (header :: rows))
        /\ lines = [wrote_line (List.length rows) out_path])
  /\ (forall (fs : filesystem) (p out_path : path)
             (lines : list string) (o : outcome),
         run fs (ConvertToJson p out_path) = (lines, o) ->
         exit_code o = 0%Z ->
         exists f,
           fs p = Some f
           /\ written o
              = Some (out_path, JsonDocument (VList (dict_reader (csv_rows f))))
           /\ lines = [wrote_line (List.length (dict_reader (csv_rows f)))
                                  out_path]).
Proof.
  split.
  - intros fs p out_path f doc lines o Hf Hload Hkeys H Hexit.
    unfold run in H.
    destruct (dataset_of doc) as [items|] eqn:Hd.
    + assert (Hcount : json_record_count fs p = List.length items).
      { unfold json_record_count, path_open. rewrite Hf. simpl bind.
        rewrite Hload. cbn [ret]. now rewrite Hd. }
      rewrite Hcount in H.
      rewrite (json_to_csv_dataset fs p f doc items Hf Hload Hd Hkeys) in H.
      cbv zeta in H.
      destruct (write_rows
                  (map Some (sort_strings (strings_of (union_fields items))))
                  items [sort_strings (strings_of (union_fields items))])
        as [out' r'] eqn:E.
      apply write_rows_shape in E. destruct E as [rows [-> [_ [_ Hok]]]].
      destruct r' as [e | []]; injection H as <- <-; [discriminate|].
      exists (sort_strings (strings_of (union_fields items))), rows.
      rewrite (Hok eq_refl). split; reflexivity.
    + exfalso. unfold json_to_csv, path_open in H. rewrite Hf in H.
      simpl bind in H. rewrite Hload in H.
      destruct doc; try discriminate; injection H as <- <-; discriminate.
  - intros fs p out_path lines o H Hexit. unfold run in H.
    destruct (csv_to_json fs p) as [e | data] eqn:E;
      injection H as <- <-; [discriminate|].
    unfold csv_to_json, path_open in E.
    destruct (fs p) as [f|]; simpl in E; [| discriminate].
    rewrite read_csv_loop_all in E.
    destruct (csv_error f); simpl in E; [discriminate|].
    injection E as <-. exists f. repeat split.
Qed.

Lemma convert_reports_rows_written_witness :
  let doc := VList [VDict [(Some "a", VInt 1)]; VDict []] in
  let f := json_file doc in
  let fs := single_file "d.json" f in
  let lines := ["Wrote 2 records to o.csv"] in
  let o := Outcome 0 [] (Some ("o.csv", CsvDocument [["a"]; ["1"]; [""]])) in
  fs "d.json" = Some f
  /\ json_load f = ret doc
  /\ str_keyed doc = true
  /\ run fs (ConvertToCsv "d.json" "o.csv") = (lines, o)
  /\ exit_code o = 0%Z
  /\ exists header rows,
      written o = Some ("o.csv", CsvDocument (header :: rows))
      /\ lines = [wrote_line (List.length rows) "o.csv"].
Proof.
  intros doc f fs lines o.
  split; [reflexivity |]. split; [reflexivity |]. split; [reflexivity |].
  split; [reflexivity |]. split; [reflexivity |].
  exact (proj1 convert_reports_rows_written fs "d.json" "o.csv" f doc lines o
           eq_refl eq_refl eq_refl eq_refl eq_refl).
Defined.

(** X6. For every cap [n >= 1] and a source that reads without error,
    both readers return exactly [min n total] records, the first ones in
    source order. *)
Theorem read_cap_min :
  forall (fs : filesystem) (p : path) (f : file) (n : Z),
    fs p = Some f ->
    (1 <= n)%Z ->
    (csv_error f = None ->
     exists out,
       read_csv fs p (Some n) = ret out
       /\ out = firstn (Z.to_nat n) (dict_reader (csv_rows f))
       /\ List.length out
          = Nat.min (Z.to_nat n) (List.length (dict_reader (csv_rows f))))
    /\ (forall items,
           json_load f = ret (VList items) ->
           exists out,
             read_json fs p (Some n) = ret out
             /\ out = firstn (Z.to_nat n) items
             /\ List.length out = Nat.min (Z.to_nat n) (List.length items)).
Proof.
  intros fs p f n Hf Hn.
  destruct (read_cap_positive fs p f n Hf Hn) as [H1 [H2 _]]. split.
  - intro He. eexists. split; [exact (H1 He) |].
    split; [reflexivity | apply length_firstn].
  - intros items Hload. eexists. split; [exact (H2 items Hload) |].
    split; [reflexivity | apply length_firstn].
Qed.

Lemma read_cap_min_witness :
  let f := File (ret (VList [VInt 1; VInt 2; VInt 3]))
                [["a"]; ["1"]; ["2"]; ["3"]] None in
  let fs := single_file "d" f in
  fs "d" = Some f
  /\ (1 <= 5)%Z
  /\ csv_error f = None
  /\ exists out,
      read_csv fs "d" (Some 5%Z) = ret out
      /\ out = firstn (Z.to_nat 5) (dict_reader (csv_rows f))
      /\ List.length out
         = Nat.min (Z.to_nat 5) (List.length (dict_reader (csv_rows f))).
Proof.
  intros f fs.
  assert (Hn : (1 <= 5)%Z) by lia.
  split; [reflexivity |]. split; [exact Hn |]. split; [reflexivity |].
  exact (proj1 (read_cap_min fs "d" f 5%Z eq_refl Hn) eq_refl).
Defined.

(** ** Text accepted as [int] is accepted as [float] *)

Lemma digit_not_underscore (c : ascii) :
  is_digit c = true -> is_underscore c = false.
Proof.
  intro H. unfold is_underscore. destruct (Ascii.eqb c "_") eqn:E;
    [| reflexivity].
  apply Ascii.eqb_eq in E. subst. discriminate.
Qed.

Lemma digit_not_sign (c : ascii) : is_digit c = true -> is_sign c = false.
Proof.
  intro H. unfold is_sign.
  destruct (Ascii.eqb c "+") eqn:E1;
    [apply Ascii.eqb_eq in E1; subst; discriminate |].
  destruct (Ascii.eqb c "-") eqn:E2;
    [apply Ascii.eqb_eq in E2; subst; discriminate | reflexivity].
Qed.

Lemma sign_not_digit_underscore (c : ascii) :
  is_sign c = true -> is_digit c = false /\ is_underscore c = false.
Proof.
  unfold is_sign. intro H. apply orb_true_iff in H.
  destruct H as [H | H]; apply Ascii.eqb_eq in H; subst; split; reflexivity.
Qed.

Lemma underscore_not_digit (c : ascii) :
  is_underscore c = true -> is_digit c = false.
Proof.
  unfold is_underscore. intro H. apply Ascii.eqb_eq in H. now subst.
Qed.

Lemma digits_us_underscores_ok (l : list ascii) :
  forall prev : option ascii,
    digits_us (match prev with Some p => is_digit p | None => false end) l
    = true ->
    underscores_ok prev l = true.
Proof.
  induction l as [|c l IH]; intros prev H; simpl in *.
  - destruct prev as [p|]; [| discriminate].
    now rewrite (digit_not_underscore p H).
  - destruct (is_digit c) eqn:Ec.
    + rewrite (digit_not_underscore c Ec), orb_true_r. simpl.
      apply IH. simpl. now rewrite Ec.
    + destruct (is_underscore c) eqn:Eu; [| discriminate].
      apply andb_true_iff in H. destruct H as [H1 H2].
      rewrite H1. simpl. apply IH. simpl. now rewrite Ec.
Qed.

Lemma digits_us_filter (l : list ascii) :
  forall prev : bool,
    digits_us prev l = true ->
    forallb is_digit (filter (fun c => negb (is_underscore c)) l) = true.
Proof.
  induction l as [|c l IH]; intros prev H; simpl in *; [reflexivity|].
  destruct (is_digit c) eqn:Ec.
  - rewrite (digit_not_underscore c Ec). simpl. rewrite Ec. simpl.
    now apply (IH true).
  - destruct (is_underscore c) eqn:Eu; [| discriminate]. simpl.
    apply andb_true_iff in H. now apply (IH false).
Qed.

Lemma span_digits_all (l : list ascii) :
  forallb is_digit l = true -> span_digits l = (List.length l, []).
Proof.
  induction l as [|c l IH]; simpl; intro H; [reflexivity|].
  apply andb_true_iff in H. destruct H as [H1 H2].
  now rewrite H1, (IH H2).
Qed.

Lemma is_word_digit (w : string) (c : ascii) (l : list ascii) :
  is_digit c = true ->
  (match w with
   | String x _ => is_digit x
   | EmptyString => true
   end) = false ->
  is_word w (c :: l) = false.
Proof.
  intros Hc Hw. unfold is_word. simpl.
  assert (Hl : lower_char c = c).
  { unfold lower_char. unfold is_digit in Hc.
    apply andb_true_iff in Hc. destruct Hc as [H1 H2].
    apply Nat.leb_le in H1, H2.
    destruct (65 <=? nat_of_ascii c) eqn:E; [| reflexivity].
    apply Nat.leb_le in E. lia. }
  rewrite Hl. destruct w as [|x w]; [discriminate|].
  simpl. destruct (Ascii.eqb c x) eqn:E; [| reflexivity].
  apply Ascii.eqb_eq in E. subst. congruence.
Qed.

(** Digits only, at least one: a float. *)
Lemma float_grammar_digits (c : ascii) (l : list ascii) :
  forallb is_digit (c :: l) = true -> float_grammar (c :: l) = true.
Proof.
  intro H. pose proof H as Hall. simpl in H.
  apply andb_true_iff in H. destruct H as [Hc Hl].
  unfold float_grammar.
  assert (Hd : drop_sign (c :: l) = c :: l).
  { simpl. now rewrite (digit_not_sign c Hc). }
  rewrite Hd.
  rewrite !(is_word_digit _ c l Hc) by reflexivity. simpl orb. cbv iota.
  rewrite (span_digits_all (c :: l) Hall). simpl. reflexivity.
Qed.

Lemma filter_no_underscore (l : list ascii) :
  existsb is_underscore l = false ->
  filter (fun c => negb (is_underscore c)) l = l.
Proof.
  induction l as [|c l IH]; simpl; intro H; [reflexivity|].
  apply orb_false_iff in H. destruct H as [H1 H2].
  now rewrite H1, (IH H2).
Qed.

Lemma int_text_float_text (s : string) :
  int_text_ok s = true -> float_text_ok s = true.
Proof.
  unfold int_text_ok, float_text_ok. cbv zeta.
  set (t := strip (number_chars s)). clearbody t. intro H.
  apply andb_true_iff in H. destruct H as [H _].
  assert (G : underscores_ok None t = true
              /\ float_grammar (filter (fun c => negb (is_underscore c)) t)
                 = true).
  { destruct t as [|c t]; [discriminate|].
    simpl drop_sign in H. destruct (is_sign c) eqn:Es.
    - destruct (sign_not_digit_underscore c Es) as [Hd Hu]. split.
      + simpl. rewrite Hu. simpl.
        apply digits_us_underscores_ok. simpl. now rewrite Hd.
      + pose proof (digits_us_filter t false H) as Hall.
        simpl filter. rewrite Hu. simpl negb. cbv iota.
        destruct (filter (fun c0 => negb (is_underscore c0)) t)
          as [|d ds] eqn:Ef.
        * exfalso. destruct t as [|x t]; [discriminate|].
          simpl in H. simpl in Ef.
          destruct (is_digit x) eqn:Ex.
          -- rewrite (digit_not_underscore x Ex) in Ef. discriminate.
          -- destruct (is_underscore x); discriminate.
        * pose proof (float_grammar_digits d ds Hall) as Hg.
          unfold float_grammar in *. simpl drop_sign. rewrite Es.
          simpl in Hall. apply andb_true_iff in Hall.
          destruct Hall as [Hdd _].
          simpl drop_sign in Hg. rewrite (digit_not_sign d Hdd) in Hg.
          exact Hg.
    - split.
      + now apply (digits_us_underscores_ok (c :: t) None).
      + pose proof (digits_us_filter (c :: t) false H) as Hall.
        simpl in H. destruct (is_digit c) eqn:Ec.
        * simpl filter in *. rewrite (digit_not_underscore c Ec) in *.
          simpl negb in *. cbv iota in *.
          now apply float_grammar_digits.
        * destruct (is_underscore c); discriminate. }
  destruct G as [G1 G2].
  destruct (existsb is_underscore t) eqn:E.
  - now rewrite G1, G2.
  - now rewrite (filter_no_underscore t E) in G2.
Qed.

(** X19. Relaxing a field from [int] to [float] never adds an error for
    a text value: whenever the validator accepts the text of a field
    under the tag [int], it accepts it under the tag [float].  The text
    is any text: decimal digits and white space of every script count as
    [int] and [float] count them, and the digit limit of [int] does not
    bind [float]. *)
Theorem validate_int_implies_float :
  forall (i : nat) (d : dict) (field : key) (s : string)
         (errors : list string),
    dict_get d field = Some (VStr s) ->
    check_field i (VDict d) field (VStr "int") errors = ret errors ->
    check_field i (VDict d) field (VStr "float") errors = ret errors.
Proof.
  intros i d field s errors Hget H.
  assert (Hne : forall x : string, (errors ++ [x])%list <> errors).
  { intros x E. apply (f_equal (@List.length string)) in E.
    rewrite length_app in E. simpl in E. lia. }
  unfold check_field, obj_get, dict_get_default, bind, ret in *.
  rewrite Hget in *.
  destruct (is_missing (VStr s)).
  - injection H as H. exfalso. now apply (Hne _ H).
  - simpl in *. destruct (int_text_ok s) eqn:Ei.
    + now rewrite (int_text_float_text s Ei).
    + injection H as H. exfalso. now apply (Hne _ H).
Qed.

Lemma validate_int_implies_float_witness :
  let d := [(Some "n", VStr " -1_000 ")] in
  dict_get d (Some "n") = Some (VStr " -1_000 ")
  /\ check_field 0 (VDict d) (Some "n") (VStr "int") [] = ret []
  /\ check_field 0 (VDict d) (Some "n") (VStr "float") [] = ret [].
Proof.
  intro d. split; [reflexivity |]. split; [reflexivity |].
  exact (validate_int_implies_float 0 d (Some "n") " -1_000 " []
           eq_refl eq_refl).
Defined.

(** ** Hierarchical to delimited and back *)

Lemma sorted_NoDup (l : list string) : StronglySorted str_lt l -> NoDup l.
Proof.
  induction 1 as [|a l Hs IH Hall]; constructor; [| exact IH].
  intro Hin. rewrite Forall_forall in Hall.
  apply (str_lt_irrefl a). now apply Hall.
Qed.

Lemma combine_map_cells (header : list string) (f : string -> string) :
  combine (map Some header) (map VStr (map f header))
  = map (fun name => (Some name, VStr (f name))) header.
Proof.
  induction header as [|name header IH]; simpl; [reflexivity|].
  now rewrite IH.
Qed.

Lemma filter_all {A : Type} (f : A -> bool) (l : list A) :
  (forall x, In x l -> f x = true) -> filter f l = l.
Proof.
  induction l as [|a l IH]; intro H; simpl; [reflexivity|].
  rewrite (H a (or_introl eq_refl)). f_equal. apply IH.
  intros x Hx. apply H. now right.
Qed.

(** X20. Take a dataset of records with at least one field that the
    flattener has written without error, and suppose the delimited
    reader, run on the written file, yields back exactly the written
    rows without error.  Then [convert-to-json] on that file builds, for
    every record in order, a record with exactly the header fields in
    header order, each bound to the text of its cell: a field the record
    lacked comes back as empty text, a number as its text, a nested value
    as its JSON text.  The last part shows such a round trip value by
    value. *)
Theorem json_csv_json_round_trip :
  forall (w : output_faults) (fs : filesystem) (p : path) (f : file)
         (doc : value) (items : list value) (out : list (list string))
         (fs' : filesystem) (q : path) (f' : file),
    fs p = Some f ->
    json_load f = ret doc ->
    dataset_of doc = Some items ->
    str_keyed doc = true ->
    forallb is_record items = true ->
    (exists d name, In (VDict d) items /\ In (Some name) (dict_keys d)) ->
    json_to_csv_run w fs p = (Some out, ret tt) ->
    fs' q = Some f' ->
    csv_rows f' = out ->
    csv_error f' = None ->
    (exists header : list string,
        out = header :: map (fun r => map (expected_cell r) header) items
        /\ csv_to_json fs' q
           = ret (VList
                    (map (fun r =>
                            VDict (map (fun name =>
                                          (Some name,
                                           VStr (expected_cell r name)))
                                       header))
                         items)))
    /\ json_to_csv_run no_output_fault
         (single_file "d.json"
            (json_file
               (VList [VDict [(Some "b", VInt 1);
                              (Some "c", VFloat (FFinite "2.5"))];
                       VDict [(Some "a", VList [VInt 2; VStr "x"]);
                              (Some "b", VNone)]])))
         "d.json"
       = (Some [["a"; "b"; "c"];
                [""; "1"; "2.5"];
                ["[2, " ++ str1 dquote ++ "x" ++ str1 dquote ++ "]";
                 ""; ""]],
          ret tt)
    /\ csv_to_json
         (single_file "o.csv"
            (csv_file [["a"; "b"; "c"];
                       [""; "1"; "2.5"];
                       ["[2, " ++ str1 dquote ++ "x" ++ str1 dquote ++ "]";
                        ""; ""]]))
         "o.csv"
       = ret (VList
                [VDict [(Some "a", VStr ""); (Some "b", VStr "1");
                        (Some "c", VStr "2.5")];
                 VDict [(Some "a",
                         VStr ("[2, " ++ str1 dquote ++ "x" ++ str1 dquote
                               ++ "]"));
                        (Some "b", VStr ""); (Some "c", VStr "")]]).
Proof.
  intros w fs p f doc items out fs' q f' Hf Hload Hdata Hkeys Hrec
         [d [name [Hd Hname]]] H Hf' Hrows Herr.
  apply json_to_csv_run_success in H.
  split; [| split; reflexivity].
  destruct (header_facts items) as [Hsorted Hhead]. cbv zeta in Hsorted, Hhead.
  set (header := sort_strings (strings_of (union_fields items))) in *.
  exists header.
  assert (Hin : In name header).
  { apply Hhead. exists d. split; assumption. }
  assert (Hout : out = header :: map (fun r => map (expected_cell r) header)
                                     items).
  { rewrite (json_to_csv_dataset fs p f doc items Hf Hload Hdata Hkeys) in H.
    cbv zeta in H. fold header in H.
    rewrite write_rows_records in H by exact Hrec.
    simpl app in H. congruence. }
  split; [exact Hout |].
  rewrite Hout in Hrows.
  unfold csv_to_json, path_open. rewrite Hf'. simpl bind.
  rewrite Herr, Hrows, read_csv_loop_all. cbn [bind ret app].
  do 2 f_equal. unfold dict_reader.
  rewrite filter_all.
  - rewrite map_map. apply map_ext. intro r. f_equal.
    rewrite dict_reader_row_rectangular;
      [apply combine_map_cells | now apply sorted_NoDup | apply length_map].
  - intros row Hrow. apply in_map_iff in Hrow.
    destruct Hrow as [r [<- _]].
    destruct header as [|n0 rest]; [destruct Hin | reflexivity].
Qed.

Lemma json_csv_json_round_trip_witness :
  let items := [VDict [(Some "b", VInt 1)];
                VDict [(Some "a", VList [VInt 2])]] in
  let doc := VList items in
  let f := json_file doc in
  let fs := single_file "d.json" f in
  let out := [["a"; "b"]; [""; "1"]; ["[2]"; ""]] in
  let f' := csv_file out in
  let fs' := single_file "o.csv" f' in
  fs "d.json" = Some f
  /\ json_load f = ret doc
  /\ dataset_of doc = Some items
  /\ str_keyed doc = true
  /\ forallb is_record items = true
  /\ (exists d name, In (VDict d) items /\ In (Some name) (dict_keys d))
  /\ json_to_csv_run no_output_fault fs "d.json" = (Some out, ret tt)
  /\ fs' "o.csv" = Some f'
  /\ csv_rows f' = out
  /\ csv_error f' = None
  /\ csv_to_json fs' "o.csv"
     = ret (VList [VDict [(Some "a", VStr ""); (Some "b", VStr "1")];
                   VDict [(Some "a", VStr "[2]"); (Some "b", VStr "")]]).
Proof.
  intros items doc f fs out f' fs'.
  assert (Hfield : exists d name,
             In (VDict d) items /\ In (Some name) (dict_keys d)).
  { exists [(Some "b", VInt 1)], "b". split; simpl; tauto. }
  split; [reflexivity |]. split; [reflexivity |]. split; [reflexivity |].
  split; [reflexivity |]. split; [reflexivity |]. split; [exact Hfield |].
  split; [reflexivity |]. split; [reflexivity |]. split; [reflexivity |].
  split; [reflexivity |].
  destruct (json_csv_json_round_trip no_output_fault fs "d.json" f doc items out
              fs' "o.csv" f'
              eq_refl eq_refl eq_refl eq_refl eq_refl Hfield
              eq_refl eq_refl eq_refl eq_refl)
    as [[header [H1 H2]] _].
  etransitivity; [exact H2 |].
  assert (E : header = ["a"; "b"]) by (now injection H1 as <- _).
  rewrite E. reflexivity.
Defined.

(** ** Exit statuses *)





